(** * Polkadot Creative Identity: emotional analytics and reputation engine

    A shallow embedding of the scoring code of the repository:

    - [EmotionalBridgeProcessor::analyze_emotional_trend] and
      [EmotionalMetadata::calculate_complexity]
      (TECHNICAL_ARCHITECTURE.md, emotional_bridge.rs listings),
    - [ReputationScore::calculate_weighted_score] and
      [SoulboundManager::update_reputation]
      (TECHNICAL_ARCHITECTURE.md, soulbound.rs listings),
    - [createEmotionData] (src/utils/polkadot-client.ts).

    Numbers: the Rust code computes on [f32] and the TypeScript code on
    [number]; both are idealised here as real numbers ([R]), so rounding,
    infinities and NaN are outside that model.  What is stated over the
    real model is what rounding leaves true of the code: which formula is
    computed, in which order the guards are tried, in which range a result
    lies; no exact invariance, strict comparison of two results or tight
    error bound is claimed of it.  Where a property hangs on the rounding
    itself, the blend of [update_reputation] is also given in binary32
    ([Binary32], on the Standard Library's [SpecFloat]) and with an
    explicit rounding operator ([Rounded]).  The listings do not declare
    the type of a timestamp; timestamps are unbounded integers ([Z]) here.
    Hash maps are [gmap]s; the order in which a [HashMap] is iterated is
    not fixed by Rust and is therefore kept explicit. *)

From Stdlib Require Import Reals Lra Psatz ZArith SpecFloat.
From stdpp Require Import gmap strings list fin_maps.

#[local] Open Scope R_scope.

(** ** Numeric prelude *)

#[global] Instance Rlt_decision (x y : R) : Decision (x < y) := Rlt_dec x y.

(** [f32::clamp]: [if self < min { min } else if self > max { max } else { self }]. *)
Definition clamp (x lo hi : R) : R :=
  if decide (x < lo) then lo else if decide (hi < x) then hi else x.

(** ** Trend and complexity analyzer (emotional_bridge.rs) *)

Module EmotionalBridge.

Inductive EmotionalTrend := Ascending | Descending | Stable | Volatile.

#[global] Instance EmotionalTrend_eq_dec : EqDecision EmotionalTrend.
Proof. solve_decision. Defined.

(** One point of an emotional trajectory. *)
Record EmotionalPoint := {
  pt_valence : R;
  pt_arousal : R;
  pt_dominance : R;
  pt_timestamp : Z
}.

Record EmotionalMetadata := {
  valence : R;
  arousal : R;
  dominance : R;
  timestamp : Z;
  emotional_trajectory : list EmotionalPoint;
  emotional_complexity : R
}.

(** The [match (valence_diff.abs(), arousal_diff.abs())] of
    [analyze_emotional_trend], guards in source order. *)
Definition trend_of_diffs (valence_diff arousal_diff : R) : EmotionalTrend :=
  let v := Rabs valence_diff in
  let a := Rabs arousal_diff in
  if decide (v < 0.1 ∧ a < 0.1) then Stable
  else if decide (0.3 < v ∨ 0.3 < a) then Volatile
  else if decide (0.1 < valence_diff ∨ 0.1 < arousal_diff) then Ascending
  else if decide (valence_diff < -0.1 ∨ arousal_diff < -0.1) then Descending
  else Stable.

(** The classification rule in the order the specification lists it. *)
Definition priority_rule (valence_diff arousal_diff : R) (r : EmotionalTrend) : Prop :=
  let c1 := Rabs valence_diff < 0.1 ∧ Rabs arousal_diff < 0.1 in
  let c2 := Rabs valence_diff > 0.3 ∨ Rabs arousal_diff > 0.3 in
  let c3 := valence_diff > 0.1 ∨ arousal_diff > 0.1 in
  let c4 := valence_diff < -0.1 ∨ arousal_diff < -0.1 in
  (c1 → r = Stable) ∧
  (¬ c1 → c2 → r = Volatile) ∧
  (¬ c1 → ¬ c2 → c3 → r = Ascending) ∧
  (¬ c1 → ¬ c2 → ¬ c3 → c4 → r = Descending) ∧
  (¬ c1 → ¬ c2 → ¬ c3 → ¬ c4 → r = Stable).

(** [history.iter().take(5.min(history.len())).collect()] *)
Definition recent (history : list EmotionalMetadata) : list EmotionalMetadata :=
  take (5 `min` length history) history.

(** [analyze_emotional_trend]; [None] stands for the panic of an [unwrap()]
    on an empty [recent]. *)
Definition analyze_emotional_trend (history : list EmotionalMetadata)
  : option EmotionalTrend :=
  if decide (length history < 2)%nat then Some Stable
  else
    oldest ← head (recent history);
    newest ← last (recent history);
    let valence_diff := valence newest - valence oldest in
    let arousal_diff := arousal newest - arousal oldest in
    Some (trend_of_diffs valence_diff arousal_diff).

(** The window as the specification words it: the last [min(5, len)]
    entries of the trajectory. *)
Definition window_spec (history : list EmotionalMetadata) : list EmotionalMetadata :=
  drop (length history - 5 `min` length history) history.

(** [classify_trend] over the specification's window. *)
Definition classify_trend_spec (history : list EmotionalMetadata)
  : option EmotionalTrend :=
  if decide (length history < 2)%nat then Some Stable
  else
    oldest ← head (window_spec history);
    newest ← last (window_spec history);
    Some (trend_of_diffs (valence newest - valence oldest)
                         (arousal newest - arousal oldest)).

(** Euclidean distance of two consecutive points in the (valence, arousal)
    plane: [((curr.valence - prev.valence).powi(2) +
             (curr.arousal - prev.arousal).powi(2)).sqrt()], the [f32]
    square, sum and root read as the exact ones. *)
Definition distance (prev curr : EmotionalPoint) : R :=
  sqrt ((pt_valence curr - pt_valence prev) ^ 2 +
        (pt_arousal curr - pt_arousal prev) ^ 2).

(** Body of [for i in 1..len]: both indexings can panic, hence [option]. *)
Definition complexity_step (trajectory : list EmotionalPoint)
    (total_distance : option R) (i : nat) : option R :=
  total ← total_distance;
  prev ← trajectory !! (i - 1)%nat;
  curr ← trajectory !! i;
  Some (total + distance prev curr).

Definition set_emotional_complexity (self : EmotionalMetadata) (c : R)
  : EmotionalMetadata :=
  {| valence := valence self; arousal := arousal self;
     dominance := dominance self; timestamp := timestamp self;
     emotional_trajectory := emotional_trajectory self;
     emotional_complexity := c |}.

(** [EmotionalMetadata::calculate_complexity(&mut self)]: returns the
    updated record, [None] for an index panic. *)
Definition calculate_complexity (self : EmotionalMetadata)
  : option EmotionalMetadata :=
  let trajectory := emotional_trajectory self in
  if decide (length trajectory < 2)%nat then
    Some (set_emotional_complexity self 0)
  else
    total_distance ←
      foldl (complexity_step trajectory) (Some 0)
            (seq 1 (length trajectory - 1));
    Some (set_emotional_complexity self
            (clamp (total_distance / INR (length trajectory)) 0 1)).

(** The sum over consecutive pairs, by recursion on the trajectory. *)
Fixpoint path_length (trajectory : list EmotionalPoint) : R :=
  match trajectory with
  | prev :: (curr :: _) as rest => distance prev curr + path_length rest
  | _ => 0
  end.

(** The total as the specification words it: starting from 0, for
    [i = 1..len-1] add [sqrt((v_i - v_{i-1})^2 + (a_i - a_{i-1})^2)]; the
    pairs [(i-1, i)] are the trajectory zipped with its tail. *)
Definition total_distance_spec (trajectory : list EmotionalPoint) : R :=
  foldl (λ total pair,
           total + sqrt ((pt_valence pair.2 - pt_valence pair.1)²
                         + (pt_arousal pair.2 - pt_arousal pair.1)²))
        0 (zip trajectory (drop 1 trajectory)).

End EmotionalBridge.

(** ** Soulbound reputation engine (soulbound.rs) *)

(** What [update_reputation] reads from outside its arguments: the system
    clock behind [current_timestamp()], and the order in which the
    activity's [HashMap] hands out its entries (some enumeration of the
    entries, each exactly once). *)
Record World := {
  current_timestamp : Z;
  hash_order : gmap string R → list (string * R);
  hash_order_perm : ∀ m, hash_order m ≡ₚ map_to_list m
}.

Module Soulbound.

Definition H256 := N.

Inductive VerificationLevel := Basic | Verified | Enhanced | Premium.

#[global] Instance VerificationLevel_eq_dec : EqDecision VerificationLevel.
Proof. solve_decision. Defined.

Record ReputationScore := {
  overall_score : R;
  emotional_consistency : R;
  creative_output_quality : R;
  community_engagement : R;
  cross_chain_activity : R;
  temporal_stability : R;
  verification_level : VerificationLevel;
  category_scores : gmap string R
}.

(** [VerificationLevel::get_reputation_multiplier] *)
Definition get_reputation_multiplier (self : VerificationLevel) : R :=
  match self with
  | Basic => 0.8
  | Verified => 1.0
  | Enhanced => 1.2
  | Premium => 1.5
  end.

(** [VerificationLevel::get_privilege_level], a [u8]. *)
Definition get_privilege_level (self : VerificationLevel) : Z :=
  match self with
  | Basic => 1
  | Verified => 2
  | Enhanced => 3
  | Premium => 4
  end.

(** [ReputationScore::calculate_weighted_score(&self)], over the struct's
    own fields. *)
Definition calculate_weighted_score (self : ReputationScore) : R :=
  let base_score :=
    emotional_consistency self * 0.25 +
    creative_output_quality self * 0.25 +
    community_engagement self * 0.20 +
    cross_chain_activity self * 0.15 +
    temporal_stability self * 0.15 in
  let verification_multiplier :=
    match verification_level self with
    | Basic => 0.8
    | Verified => 1.0
    | Enhanced => 1.2
    | Premium => 1.5
    end in
  clamp (base_score * verification_multiplier) 0 1.

(** The fields of a token that [update_reputation] touches. *)
Record SoulboundToken := {
  reputation_score : ReputationScore;
  last_updated : Z
}.

Record Activity := {
  activity_scores : gmap string R   (* [Activity::category_scores] *)
}.

Record SoulboundManager := {
  tokens : gmap H256 SoulboundToken
}.

Inductive Error := TokenNotFound (token_id : H256).

Inductive Result (A : Type) := Ok (a : A) | Err (e : Error).
Arguments Ok {A} a.
Arguments Err {A} e.

Definition is_ok {A} (r : Result A) : bool :=
  match r with Ok _ => true | Err _ => false end.

(** [get_token_mut] is used but not listed; it is taken to look the token
    up by its id and to fail when there is none. *)
Definition get_token_mut (self : SoulboundManager) (token_id : H256)
  : Result SoulboundToken :=
  match tokens self !! token_id with
  | Some token => Ok token
  | None => Err (TokenNotFound token_id)
  end.

(** Writing through the [&mut SoulboundToken]. *)
Definition put_token (self : SoulboundManager) (token_id : H256)
    (token : SoulboundToken) : SoulboundManager :=
  {| tokens := <[token_id := token]> (tokens self) |}.

(** [(decayed_current + new_score * (1.0 - time_decay)).clamp(0.0, 1.0)]
    with [decayed_current = current * time_decay]. *)
Definition blend (current new_score time_decay : R) : R :=
  let decayed_current := current * time_decay in
  clamp (decayed_current + new_score * (1 - time_decay)) 0 1.

(** Body of [for (category, new_score) in &new_activity.category_scores]:
    reads the map being updated, then inserts. *)
Definition update_category (time_decay : R) (scores : gmap string R)
    (entry : string * R) : gmap string R :=
  let '(category, new_score) := entry in
  let current := default 0.5 (scores !! category) in
  <[category := blend current new_score time_decay]> scores.

Section UpdateReputation.
(** Constants and helpers that the listing calls but does not define. *)
Variable DECAY_HALF_LIFE : R.
Variable calculate_exponential_decay : Z → Z → R → R.
(** The free function [calculate_weighted_score(&HashMap)]. *)
Variable calculate_weighted_score_map : gmap string R → R.
Variable calculate_temporal_stability : gmap string R → Z → R.

(** [SoulboundManager::update_reputation(&mut self, token_id, new_activity)]:
    the result and the manager afterwards. *)
Definition update_reputation (w : World) (self : SoulboundManager)
    (token_id : H256) (new_activity : Activity)
  : Result ReputationScore * SoulboundManager :=
  match get_token_mut self token_id with
  | Err e => (Err e, self)
  | Ok token =>
    let current_time := current_timestamp w in
    let time_decay :=
      calculate_exponential_decay (last_updated token) current_time
                                  DECAY_HALF_LIFE in
    let score := reputation_score token in
    let scores :=
      foldl (update_category time_decay) (category_scores score)
            (hash_order w (activity_scores new_activity)) in
    let base_score := calculate_weighted_score_map scores in
    let verification_multiplier :=
      match verification_level score with
      | Basic => 0.8
      | Verified => 1.0
      | Enhanced => 1.2
      | Premium => 1.5
      end in
    let overall := clamp (base_score * verification_multiplier) 0 1 in
    let stability :=
      calculate_temporal_stability scores
        (current_time - last_updated token)%Z in
    let score' :=
      {| overall_score := overall;
         emotional_consistency := emotional_consistency score;
         creative_output_quality := creative_output_quality score;
         community_engagement := community_engagement score;
         cross_chain_activity := cross_chain_activity score;
         temporal_stability := stability;
         verification_level := verification_level score;
         category_scores := scores |} in
    let token' :=
      {| reputation_score := score'; last_updated := current_time |} in
    (Ok score', put_token self token_id token')
  end.
End UpdateReputation.

(** The weighted sum inside [ReputationScore::calculate_weighted_score]. *)
Definition base_score_of (score : ReputationScore) : R :=
  emotional_consistency score * 0.25 +
  creative_output_quality score * 0.25 +
  community_engagement score * 0.20 +
  cross_chain_activity score * 0.15 +
  temporal_stability score * 0.15.

(** The five weighted fields lie in the range the struct documents for a
    score, 0.0 to 1.0. *)
Definition fields_in_unit (score : ReputationScore) : Prop :=
  0 <= emotional_consistency score <= 1 ∧
  0 <= creative_output_quality score <= 1 ∧
  0 <= community_engagement score <= 1 ∧
  0 <= cross_chain_activity score <= 1 ∧
  0 <= temporal_stability score <= 1.

(** The score that a call leaves under a category, if it succeeded. *)
Definition score_after (r : Result ReputationScore * SoulboundManager)
    (category : string) : option R :=
  match r.1 with
  | Ok score' => category_scores score' !! category
  | Err _ => None
  end.

(** Modelled from the spec: [calculate_exponential_decay], which the
    listing calls and no source file defines.
    [decay = exp(-ln(2) * elapsed / HALF_LIFE)], [elapsed = now - last_updated]. *)
Definition exponential_decay_spec (last_updated now : Z) (half_life : R) : R :=
  exp (- ln 2 * IZR (now - last_updated) / half_life).

(** Modelled from the spec: the free function
    [calculate_weighted_score(&category_scores)], which the listing calls
    and no source file defines.  A fixed-weight sum over the five
    canonical keys, a missing key counting 0.0. *)
Definition weighted_score_spec (scores : gmap string R) : R :=
  0.25 * default 0 (scores !! "emotional_consistency") +
  0.25 * default 0 (scores !! "creative_output_quality") +
  0.20 * default 0 (scores !! "community_engagement") +
  0.15 * default 0 (scores !! "cross_chain_activity") +
  0.15 * default 0 (scores !! "temporal_stability").

(** The category map after the loop, key by key. *)
Definition blended_scores (time_decay : R) (old new : gmap string R)
  : gmap string R :=
  merge (λ o n, match n with
                | Some new_score => Some (blend (default 0.5 o) new_score time_decay)
                | None => o
                end) old new.

End Soulbound.

(** ** The blend in binary32 *)

(** [f32] as IEEE 754 binary32: 24 bits of precision, round to nearest
    even, on [SpecFloat]'s executable operations. *)
Module Binary32.

Definition prec : Z := 24.
Definition emax : Z := 128.

Definition add : spec_float → spec_float → spec_float := SFadd prec emax.
Definition sub : spec_float → spec_float → spec_float := SFsub prec emax.
Definition mul : spec_float → spec_float → spec_float := SFmul prec emax.
Definition ltb : spec_float → spec_float → bool := SFltb.

(** The literals [0.0] and [1.0]. *)
Definition zero : spec_float := S754_zero false.
Definition one : spec_float := S754_finite false 8388608 (-23).

(** [f32::clamp] *)
Definition clamp (x lo hi : spec_float) : spec_float :=
  if ltb x lo then lo else if ltb hi x then hi else x.

(** The loop body of [update_reputation] on binary32:
    [let decayed_current = current * time_decay;]
    [(decayed_current + new_score * (1.0 - time_decay)).clamp(0.0, 1.0)]. *)
Definition blend (current new_score time_decay : spec_float) : spec_float :=
  let decayed_current := mul current time_decay in
  clamp (add decayed_current (mul new_score (sub one time_decay))) zero one.

(** The real number that a finite binary32 value stands for. *)
Definition to_R (x : spec_float) : R :=
  match x with
  | S754_finite s m e =>
    let v := match e with
             | Zneg p => IZR (Zpos m) / IZR (Z.pow_pos 2 p)
             | _ => IZR (Zpos m * 2 ^ e)
             end in
    if s then - v else v
  | _ => 0
  end.

End Binary32.

(** The same loop body with every [f32] operation written as the exact
    operation followed by a rounding [rnd]. *)
Module Rounded.

Definition blend (rnd : R → R) (current new_score time_decay : R) : R :=
  let decayed_current := rnd (current * time_decay) in
  clamp (rnd (decayed_current + rnd (new_score * rnd (1 - time_decay)))) 0 1.

(** What is asked of the rounding: up to magnitude 2 it moves a number by
    at most [2^-24], half the gap between neighbouring binary32 numbers
    below 2. *)
Definition rounds_within (rnd : R → R) : Prop :=
  ∀ x, Rabs x <= 2 → Rabs (rnd x - x) <= / 2 ^ 24.

(** Rounding to the nearest multiple of [2^-24]. *)
Definition grid_round (x : R) : R := IZR (Int_part (x * 2 ^ 24 + / 2)) / 2 ^ 24.

End Rounded.

(** ** Emotion records of the TypeScript client (polkadot-client.ts) *)

Module PolkadotClient.

Record EmotionData := {
  valence : R;
  arousal : R;
  dominance : R;
  confidence : R;
  timestamp : Z
}.

(** [createEmotionData(valence, arousal, dominance, confidence = 85)];
    [date_now] is the value of [Date.now()], and a [confidence] left out
    is [None]. *)
Definition createEmotionData (date_now : Z) (valence arousal dominance : R)
    (confidence : option R) : EmotionData :=
  let confidence := default 85 confidence in
  {| valence := Rmax (-1) (Rmin 1 valence);
     arousal := Rmax (-1) (Rmin 1 arousal);
     dominance := Rmax (-1) (Rmin 1 dominance);
     confidence := Rmax 0 (Rmin 100 confidence);
     timestamp := date_now |}.

(** [Math.round]: the nearest integer, a tie going toward +infinity, that
    is [floor(x + 1/2)]. *)
Definition Math_round (x : R) : Z := Int_part (x + 0.5).

(** The object [emotionDataScaled] that [createIdentity] and
    [updateIdentity] send to the contract. *)
Record EmotionDataScaled := {
  scaled_valence : Z;
  scaled_arousal : Z;
  scaled_dominance : Z;
  scaled_confidence : R;
  scaled_timestamp : Z
}.

Definition emotionDataScaled (emotionData : EmotionData) : EmotionDataScaled :=
  {| scaled_valence := Math_round (valence emotionData * 127);
     scaled_arousal := Math_round (arousal emotionData * 127);
     scaled_dominance := Math_round (dominance emotionData * 127);
     scaled_confidence := confidence emotionData;
     scaled_timestamp := timestamp emotionData |}.

(** The [emotion_data] of an identity as the contract returns it, every
    field an integer read with [toNumber()]. *)
Record ContractEmotionData := {
  contract_valence : Z;
  contract_arousal : Z;
  contract_dominance : Z;
  contract_confidence : Z;
  contract_timestamp : Z
}.

(** The [emotion_data] object that [getIdentity] builds from it. *)
Definition emotion_data_of_contract (d : ContractEmotionData) : EmotionData :=
  {| valence := IZR (contract_valence d) / 127;
     arousal := IZR (contract_arousal d) / 127;
     dominance := IZR (contract_dominance d) / 127;
     confidence := IZR (contract_confidence d);
     timestamp := contract_timestamp d |}.

(** [y] is [x] brought into [lo, hi]. *)
Definition clamped_to (lo hi x y : R) : Prop :=
  lo <= y <= hi ∧
  (x < lo → y = lo) ∧ (hi < x → y = hi) ∧ (lo <= x <= hi → y = x).

End PolkadotClient.

(** ** Cross-chain message (cross_chain.rs listing) *)

Module CrossChain.

(** A byte is an integer in [0, 256); a byte string is a list of them. *)
Definition bytes := list Z.

(** [String::as_bytes]: the bytes of the string. *)
Definition as_bytes (s : string) : bytes :=
  (λ c, Z.of_N (Ascii.N_of_ascii c)) <$> String.list_ascii_of_string s.

(** The [n] low bytes of [x], least significant first. *)
Fixpoint le_bytes (n : nat) (x : Z) : bytes :=
  match n with
  | O => []
  | S n => Z.land x 255 :: le_bytes n (Z.shiftr x 8)
  end.

(** [u64::to_le_bytes] *)
Definition to_le_bytes (x : Z) : bytes := le_bytes 8 x.

(** The number that a little-endian byte string stands for. *)
Fixpoint of_le_bytes (bs : bytes) : Z :=
  match bs with
  | [] => 0
  | b :: bs => b + 256 * of_le_bytes bs
  end.

Record CrossChainMessage := {
  source_chain : string;
  target_chain : string;
  identity_hash : N;
  reputation_hash : N;
  emotional_state_hash : N;
  timestamp : Z;
  nonce : Z;
  signature : bytes
}.

Section Hashing.
(** [Blake2b256] followed by [H256::from]: the digest of all the bytes fed
    to the hasher, in order.  The function itself is a library's. *)
Variable blake2b256 : bytes → N.

(** A hasher is the bytes absorbed so far. *)
Definition hasher_new : bytes := [].
Definition hasher_update (hasher : bytes) (data : bytes) : bytes :=
  hasher ++ data.
Definition hasher_finalize (hasher : bytes) : N := blake2b256 hasher.

(** [CrossChainMessage::calculate_identity_hash] *)
Definition calculate_identity_hash (self : CrossChainMessage) : N :=
  let hasher := hasher_new in
  let hasher := hasher_update hasher (as_bytes (source_chain self)) in
  let hasher := hasher_update hasher (as_bytes (target_chain self)) in
  let hasher := hasher_update hasher (to_le_bytes (timestamp self)) in
  let hasher := hasher_update hasher (to_le_bytes (nonce self)) in
  hasher_finalize hasher.
End Hashing.

End CrossChain.

(** ** AI bridge of the TypeScript client (polkadot-ai-bridge.ts) *)

Module AIBridge.

Record BiometricData := {
  biometricHash : string;
  emotionVector : list R;
  qualityScore : R;
  confidence : R;
  timestamp : Z
}.

Record EmotionAnalysis := {
  primaryEmotion : string;
  analysis_emotionVector : list R;
  valence : R;
  arousal : R;
  dominance : R;
  analysis_confidence : R;
  culturalContext : option string
}.

Inductive TransferStatus := pending | processing | completed | failed.

#[global] Instance TransferStatus_eq_dec : EqDecision TransferStatus.
Proof. solve_decision. Defined.

(** A JavaScript string is taken as the sequence of its code units. *)
Record CrossChainTransfer := {
  transferId : string;
  sourceChain : string;
  targetChain : string;
  tokenId : string;
  biometricData : BiometricData;
  emotionAnalysis : EmotionAnalysis;
  metadataUri : string;
  status : TransferStatus;
  transfer_timestamp : Z
}.

(** [createBiometricData(emotionVector, qualityScore = 0.85, confidence = 0.9)].
    [sha256_json] stands for
    [createHash('sha256').update(JSON.stringify(v)).digest('hex')] and
    [date_now] for [Date.now()]. *)
Definition createBiometricData (sha256_json : list R → string) (date_now : Z)
    (emotionVector : list R) (qualityScore confidence : option R)
  : BiometricData :=
  let qualityScore := default 0.85 qualityScore in
  let confidence := default 0.9 confidence in
  {| biometricHash := sha256_json emotionVector;
     emotionVector := take 6 emotionVector;
     qualityScore := Rmax 0 (Rmin 1 qualityScore);
     confidence := Rmax 0 (Rmin 1 confidence);
     timestamp := date_now |}.

(** [validateCrossChainTransfer] *)
Definition validateCrossChainTransfer (transfer : CrossChainTransfer) : bool :=
  if bool_decide (transferId transfer = "")
     || (String.length (transferId transfer) <? 10)%nat
  then false
  else if decide (qualityScore (biometricData transfer) < 0.5) then false
  else if decide (analysis_confidence (emotionAnalysis transfer) < 0.3)
  then false
  else if decide (length (emotionVector (biometricData transfer)) ≠ 6%nat)
  then false
  else true.

Record Compatibility := {
  compatible : bool;
  transformations : list string;
  format : string
}.

(** [analyzeCrossChainCompatibility]; [query_ok] tells whether the awaited
    [queryLanceDB] call returned, [false] being the [catch] branch. *)
Definition analyzeCrossChainCompatibility (query_ok : bool)
    (biometricData : BiometricData) : Compatibility :=
  if query_ok then
    let transformations := [] in
    let compatible := true in
    let transformations :=
      if decide (qualityScore biometricData < 0.8)
      then transformations ++ ["quality_enhancement"] else transformations in
    let transformations :=
      if decide (length (emotionVector biometricData) ≠ 6%nat)
      then transformations ++ ["vector_normalization"] else transformations in
    let '(transformations, compatible) :=
      if decide (confidence biometricData < 0.7)
      then (transformations ++ ["confidence_boosting"], false)
      else (transformations, compatible) in
    {| compatible := compatible;
       transformations := transformations;
       format := "cross_chain_standard" |}
  else
    {| compatible := true; transformations := []; format := "standard" |}.

Record BridgeStatistics := {
  totalTransfers : nat;
  completedTransfers : nat;
  failedTransfers : nat;
  activeTransfers_count : nat;
  successRate : R;
  averageAIConfidence : R
}.

(** The two [Map]s of the class, as the lists of their entries in insertion
    order. *)
Record PolkadotAIBridge := {
  bridgeState : list (string * CrossChainTransfer);
  activeTransfers : list (string * CrossChainTransfer)
}.

(** [getActiveTransfers] *)
Definition getActiveTransfers (self : PolkadotAIBridge)
  : list CrossChainTransfer :=
  (activeTransfers self).*2.

(** [getBridgeStatistics]; the sum and the quotients of [number]s are read
    as the exact ones. *)
Definition getBridgeStatistics (self : PolkadotAIBridge) : BridgeStatistics :=
  let transfers := (bridgeState self).*2 in
  let active := getActiveTransfers self in
  let completed :=
    length (filter (λ t, status t = completed) transfers) in
  {| totalTransfers := length transfers;
     completedTransfers := completed;
     failedTransfers := length (filter (λ t, status t = failed) transfers);
     activeTransfers_count := length active;
     successRate :=
       if decide (0 < length transfers)%nat
       then INR completed / INR (length transfers) * 100
       else 0;
     averageAIConfidence :=
       if decide (0 < length transfers)%nat
       then foldl (λ sum t, sum + analysis_confidence (emotionAnalysis t))
                  0 transfers
            / INR (length transfers)
       else 0 |}.

End AIBridge.

(** ** The ink! contract [emotional_bridge] (deployment script, lib.rs) *)

Module InkBridge.

(** The contract is built with [overflow-checks = false]: [+= 1] on a [u64]
    wraps around. *)
Definition wrapping_succ (x : Z) : Z := ((x + 1) mod 2 ^ 64)%Z.

(** [AccountId] and [Vec<u8>] are byte strings. *)
Definition AccountId := string.

Record EmotionalMetadata := {
  valence : Z;
  arousal : Z;
  dominance : Z;
  timestamp : Z;
  emotional_category : string
}.

Record BridgeInfo := {
  source_chain : string;
  target_chain : string;
  source_contract : string;
  target_contract : string;
  bridge_status : string;
  bridge_timestamp : Z;
  emotional_preservation : Z;
  bridge_complexity : Z;
  cross_chain_emotional_sync : bool
}.

Record EmotionalBridge := {
  owner : AccountId;
  emotional_data : gmap Z EmotionalMetadata;
  bridge_info : gmap Z BridgeInfo;
  token_counter : Z;
  total_bridged : Z;
  version : string
}.

(** What [self.env()] answers during one call. *)
Record Env := {
  caller : AccountId;
  block_timestamp : Z;
  account_id : AccountId
}.

Inductive Event :=
| EmotionalDataStored (token_id : Z) (owner : AccountId) (valence arousal : Z)
    (emotional_category : string)
| TokenBridged (token_id : Z) (source_chain target_chain : string)
    (bridge_timestamp emotional_preservation : Z)
| BridgeStatusUpdated (token_id : Z) (old_status new_status : string)
    (timestamp : Z).

Inductive Error :=
| TokenNotFound | BridgeNotFound | NotOwner | BridgeFailed
| InvalidEmotionalData.

Record ContractInfo := {
  info_owner : AccountId;
  info_token_counter : Z;
  info_total_bridged : Z;
  info_version : string
}.

(** [EmotionalBridge::new] *)
Definition new (env : Env) : EmotionalBridge :=
  {| owner := caller env;
     emotional_data := ∅;
     bridge_info := ∅;
     token_counter := 0;
     total_bridged := 0;
     version := "1.0.0" |}.

(** [store_emotional_data]: the returned id, the contract afterwards and the
    events emitted. *)
Definition store_emotional_data (env : Env) (self : EmotionalBridge)
    (valence arousal dominance : Z) (emotional_category : string)
  : Z * EmotionalBridge * list Event :=
  let caller := caller env in
  let token_id := token_counter self in
  let emotional_metadata :=
    {| valence := valence; arousal := arousal; dominance := dominance;
       timestamp := block_timestamp env;
       emotional_category := emotional_category |} in
  let self' :=
    {| owner := owner self;
       emotional_data := <[token_id := emotional_metadata]> (emotional_data self);
       bridge_info := bridge_info self;
       token_counter := wrapping_succ (token_counter self);
       total_bridged := total_bridged self;
       version := version self |} in
  (token_id, self',
   [EmotionalDataStored token_id caller valence arousal emotional_category]).

(** [bridge_token] *)
Definition bridge_token (env : Env) (self : EmotionalBridge)
    (token_id : Z) (target_chain target_contract : string)
  : (Error + unit) * EmotionalBridge * list Event :=
  match emotional_data self !! token_id with
  | None => (inl TokenNotFound, self, [])
  | Some emotional_data_ =>
    let bridge_info_ :=
      {| source_chain := "PolkadotRococo";
         target_chain := target_chain;
         source_contract := account_id env;
         target_contract := target_contract;
         bridge_status := "pending";
         bridge_timestamp := block_timestamp env;
         emotional_preservation := 95;
         bridge_complexity := 75;
         cross_chain_emotional_sync := true |} in
    let self' :=
      {| owner := owner self;
         emotional_data := emotional_data self;
         bridge_info := <[token_id := bridge_info_]> (bridge_info self);
         token_counter := token_counter self;
         total_bridged := wrapping_succ (total_bridged self);
         version := version self |} in
    (inr (), self',
     [TokenBridged token_id "PolkadotRococo" target_chain
                   (block_timestamp env) 95])
  end.

(** [update_bridge_status] *)
Definition update_bridge_status (env : Env) (self : EmotionalBridge)
    (token_id : Z) (new_status : string)
  : (Error + unit) * EmotionalBridge * list Event :=
  if decide (caller env ≠ owner self) then (inl NotOwner, self, [])
  else
    match bridge_info self !! token_id with
    | None => (inl BridgeNotFound, self, [])
    | Some bridge_info_ =>
      let old_status := bridge_status bridge_info_ in
      let new_bridge_info :=
        {| source_chain := source_chain bridge_info_;
           target_chain := target_chain bridge_info_;
           source_contract := source_contract bridge_info_;
           target_contract := target_contract bridge_info_;
           bridge_status := new_status;
           bridge_timestamp := bridge_timestamp bridge_info_;
           emotional_preservation := emotional_preservation bridge_info_;
           bridge_complexity := bridge_complexity bridge_info_;
           cross_chain_emotional_sync :=
             cross_chain_emotional_sync bridge_info_ |} in
      let self' :=
        {| owner := owner self;
           emotional_data := emotional_data self;
           bridge_info := <[token_id := new_bridge_info]> (bridge_info self);
           token_counter := token_counter self;
           total_bridged := total_bridged self;
           version := version self |} in
      (inr (), self',
       [BridgeStatusUpdated token_id old_status new_status
                            (block_timestamp env)])
    end.

(** [get_emotional_data], [get_bridge_info], [get_contract_info],
    [get_token_count], [get_total_bridged] *)
Definition get_emotional_data (self : EmotionalBridge) (token_id : Z)
  : option EmotionalMetadata := emotional_data self !! token_id.

Definition get_bridge_info (self : EmotionalBridge) (token_id : Z)
  : option BridgeInfo := bridge_info self !! token_id.

Definition get_contract_info (self : EmotionalBridge) : ContractInfo :=
  {| info_owner := owner self;
     info_token_counter := token_counter self;
     info_total_bridged := total_bridged self;
     info_version := version self |}.

Definition get_token_count (self : EmotionalBridge) : Z := token_counter self.

Definition get_total_bridged (self : EmotionalBridge) : Z := total_bridged self.

(** One message that changes the contract. *)
Inductive Message :=
| StoreEmotionalData (valence arousal dominance : Z) (emotional_category : string)
| BridgeToken (token_id : Z) (target_chain target_contract : string)
| UpdateBridgeStatus (token_id : Z) (new_status : string).

Definition call (env : Env) (self : EmotionalBridge) (m : Message)
  : EmotionalBridge :=
  match m with
  | StoreEmotionalData v a d c => (store_emotional_data env self v a d c).1.2
  | BridgeToken t c k => (bridge_token env self t c k).1.2
  | UpdateBridgeStatus t s => (update_bridge_status env self t s).1.2
  end.

(** The contracts that a deployment by [deployer] can reach. *)
Inductive reachable (deployer : AccountId) : EmotionalBridge → Prop :=
| reachable_new env :
    caller env = deployer → reachable deployer (new env)
| reachable_call env self m :
    reachable deployer self → reachable deployer (call env self m).

(** What every reachable contract satisfies. *)
Definition contract_invariant (deployer : AccountId) (self : EmotionalBridge)
  : Prop :=
  owner self = deployer ∧
  version self = "1.0.0"%string ∧
  dom (bridge_info self) ⊆ dom (emotional_data self) ∧
  (0 ≤ token_counter self < 2 ^ 64)%Z ∧
  (0 ≤ total_bridged self < 2 ^ 64)%Z ∧
  map_Forall (λ _ info,
    source_chain info = "PolkadotRococo"%string ∧
    emotional_preservation info = 95%Z ∧
    bridge_complexity info = 75%Z ∧
    cross_chain_emotional_sync info = true) (bridge_info self).

End InkBridge.

(** ** Example data *)

Module Examples.
Import EmotionalBridge.

Definition observation (t : Z) (v a : R) : EmotionalMetadata :=
  {| valence := v; arousal := a; dominance := 0; timestamp := t;
     emotional_trajectory := []; emotional_complexity := 0 |}.

(** Five calm observations followed by one jump in valence, oldest first. *)
Definition late_jump : list EmotionalMetadata :=
  [observation 1 0 0; observation 2 0 0; observation 3 0 0;
   observation 4 0 0; observation 5 0 0; observation 6 0.4 0].

Definition point (t : Z) (v a : R) : EmotionalPoint :=
  {| pt_valence := v; pt_arousal := a; pt_dominance := 0; pt_timestamp := t |}.

(** A record whose trajectory goes from (0, 0) to (0.3, 0.4). *)
Definition two_points : EmotionalMetadata :=
  {| valence := 0.3; arousal := 0.4; dominance := 0; timestamp := 2;
     emotional_trajectory := [point 1 0 0; point 2 0.3 0.4];
     emotional_complexity := 0 |}.

(** A world whose clock reads [now]; the hash map is walked in the order
    of [map_to_list], or in the opposite order. *)
Definition world_at (now : Z) : World :=
  {| current_timestamp := now;
     hash_order := map_to_list;
     hash_order_perm := λ m, Permutation_refl (map_to_list m) |}.

Definition world_rev_at (now : Z) : World :=
  {| current_timestamp := now;
     hash_order := λ m, reverse (map_to_list m);
     hash_order_perm := λ m, reverse_Permutation (map_to_list m) |}.

Import Soulbound.

(** Seven days, in seconds. *)
Definition half_life : R := 604800.

(** A stand-in for [calculate_temporal_stability], which no source file
    defines; no property below depends on what it returns. *)
Definition constant_stability (scores : gmap string R) (elapsed : Z) : R := 0.

Definition fresh_score (level : VerificationLevel) (scores : gmap string R)
  : ReputationScore :=
  {| overall_score := 0; emotional_consistency := 0;
     creative_output_quality := 0; community_engagement := 0;
     cross_chain_activity := 0; temporal_stability := 0;
     verification_level := level; category_scores := scores |}.

(** A token last updated at time 100 that has seen one category. *)
Definition token0 : SoulboundToken :=
  {| reputation_score :=
       fresh_score Verified {[ "community_engagement" := 0.4 ]};
     last_updated := 100 |}.

Definition manager0 : SoulboundManager := {| tokens := {[ 1%N := token0 ]} |}.

Definition creative_activity : Activity :=
  {| activity_scores := {[ "creative_output_quality" := 1 ]} |}.

Definition empty_activity : Activity := {| activity_scores := ∅ |}.

Definition out_of_range_activity : Activity :=
  {| activity_scores := {[ "creative_output_quality" := 2 ]} |}.

(** [update_reputation] with the helpers as the specification describes
    them. *)
Definition update_reputation_spec_helpers :=
  update_reputation half_life exponential_decay_spec weighted_score_spec
                    constant_stability.

(** The same call, made when the clock reads [now]. *)
Definition creative_call (now : Z) :=
  update_reputation_spec_helpers (world_at now) manager0 1%N creative_activity.

(** A call whose activity carries a score of 2. *)
Definition out_of_range_call :=
  update_reputation_spec_helpers (world_at 200) manager0 1%N
                                 out_of_range_activity.

Definition empty_call :=
  update_reputation_spec_helpers (world_at 200) manager0 1%N empty_activity.

(** What the call made at [now] returns when it succeeds. *)
Definition creative_result (now : Z) : ReputationScore :=
  match (creative_call now).1 with
  | Ok score' => score'
  | Err _ => fresh_score Basic ∅
  end.

End Examples.

(** ** Further example data *)

Module Samples.

(** Three observations, and the same with another one in the middle. *)
Definition rising : list EmotionalBridge.EmotionalMetadata :=
  [Examples.observation 1 0 0; Examples.observation 2 0.05 0.05;
   Examples.observation 3 0.2 0.1].

Definition rising_detour : list EmotionalBridge.EmotionalMetadata :=
  [Examples.observation 1 0 0; Examples.observation 2 0.9 (-0.9);
   Examples.observation 3 0.2 0.1].

(** A score with every weighted field at 0.5. *)
Definition even_score (level : Soulbound.VerificationLevel)
  : Soulbound.ReputationScore :=
  {| Soulbound.overall_score := 0;
     Soulbound.emotional_consistency := 0.5;
     Soulbound.creative_output_quality := 0.5;
     Soulbound.community_engagement := 0.5;
     Soulbound.cross_chain_activity := 0.5;
     Soulbound.temporal_stability := 0.5;
     Soulbound.verification_level := level;
     Soulbound.category_scores := ∅ |}.

(** A decay helper that always answers one half. *)
Definition half_decay (last_updated now : Z) (half_life : R) : R := 0.5.

Definition half_decay_call :=
  Soulbound.update_reputation Examples.half_life half_decay
    Soulbound.weighted_score_spec Examples.constant_stability
    (Examples.world_at 200) Examples.manager0 1%N Examples.creative_activity.

(** Two messages whose chain names split the same text differently. *)
Definition message_near : CrossChain.CrossChainMessage :=
  {| CrossChain.source_chain := "polkadot";
     CrossChain.target_chain := "near";
     CrossChain.identity_hash := 1%N;
     CrossChain.reputation_hash := 2%N;
     CrossChain.emotional_state_hash := 3%N;
     CrossChain.timestamp := 1700000000;
     CrossChain.nonce := 7;
     CrossChain.signature := [] |}.

Definition message_ear : CrossChain.CrossChainMessage :=
  {| CrossChain.source_chain := "polkadotn";
     CrossChain.target_chain := "ear";
     CrossChain.identity_hash := 4%N;
     CrossChain.reputation_hash := 5%N;
     CrossChain.emotional_state_hash := 6%N;
     CrossChain.timestamp := 1700000000;
     CrossChain.nonce := 7;
     CrossChain.signature := [] |}.

(** A stand-in for the digest, for running the hashing code. *)
Definition toy_digest (data : CrossChain.bytes) : N :=
  Z.to_N (foldr Z.add 0%Z data).

Definition half_valence : PolkadotClient.EmotionData :=
  PolkadotClient.createEmotionData 0 0.5 (-0.25) 2 None.

Definition half_valence_stored : PolkadotClient.ContractEmotionData :=
  {| PolkadotClient.contract_valence :=
       PolkadotClient.scaled_valence (PolkadotClient.emotionDataScaled half_valence);
     PolkadotClient.contract_arousal :=
       PolkadotClient.scaled_arousal (PolkadotClient.emotionDataScaled half_valence);
     PolkadotClient.contract_dominance :=
       PolkadotClient.scaled_dominance (PolkadotClient.emotionDataScaled half_valence);
     PolkadotClient.contract_confidence := 85;
     PolkadotClient.contract_timestamp := 0 |}.

(** A stand-in for the SHA-256 of the JSON text of a vector. *)
Definition toy_sha256_json (v : list R) : string := "00".

Definition six_entries : list R := [0.1; 0.2; 0.3; 0.4; 0.5; 0.6].

Definition neutral_analysis : AIBridge.EmotionAnalysis :=
  {| AIBridge.primaryEmotion := "neutral";
     AIBridge.analysis_emotionVector := six_entries;
     AIBridge.valence := 0.1; AIBridge.arousal := 0.2;
     AIBridge.dominance := 0.3;
     AIBridge.analysis_confidence := 0.7;
     AIBridge.culturalContext := None |}.

Definition sample_transfer : AIBridge.CrossChainTransfer :=
  {| AIBridge.transferId := "polkadot_near_1700000000000_0123456789abcdef";
     AIBridge.sourceChain := "polkadot";
     AIBridge.targetChain := "near";
     AIBridge.tokenId := "42";
     AIBridge.biometricData :=
       AIBridge.createBiometricData toy_sha256_json 0 six_entries None None;
     AIBridge.emotionAnalysis := neutral_analysis;
     AIBridge.metadataUri := "ipfs://sample";
     AIBridge.status := AIBridge.completed;
     AIBridge.transfer_timestamp := 0 |}.

(** The calls of the contract's unit tests, made by alice; bob is another
    caller. *)
Definition alice_env : InkBridge.Env :=
  {| InkBridge.caller := "alice"; InkBridge.block_timestamp := 1000;
     InkBridge.account_id := "contract" |}.

Definition bob_env : InkBridge.Env :=
  {| InkBridge.caller := "bob"; InkBridge.block_timestamp := 1000;
     InkBridge.account_id := "contract" |}.

Definition stored_contract : InkBridge.EmotionalBridge :=
  InkBridge.call alice_env (InkBridge.new alice_env)
    (InkBridge.StoreEmotionalData 75 80 60 "Excited").

Definition bridged_contract : InkBridge.EmotionalBridge :=
  InkBridge.call alice_env stored_contract
    (InkBridge.BridgeToken 0 "Ethereum" "0x1234567890abcdef").

Definition excited : InkBridge.EmotionalMetadata :=
  {| InkBridge.valence := 75; InkBridge.arousal := 80;
     InkBridge.dominance := 60; InkBridge.timestamp := 1000;
     InkBridge.emotional_category := "Excited" |}.

Definition pending_bridge : InkBridge.BridgeInfo :=
  {| InkBridge.source_chain := "PolkadotRococo";
     InkBridge.target_chain := "Ethereum";
     InkBridge.source_contract := "contract";
     InkBridge.target_contract := "0x1234567890abcdef";
     InkBridge.bridge_status := "pending";
     InkBridge.bridge_timestamp := 1000;
     InkBridge.emotional_preservation := 95;
     InkBridge.bridge_complexity := 75;
     InkBridge.cross_chain_emotional_sync := true |}.

(** Binary32 numbers: 0.5, the nearest to 0.7 and its lower neighbour, and
    the powers 2^-23 and 2^-24. *)
Definition f32_half : spec_float := S754_finite false 8388608 (-24).
Definition f32_0_7 : spec_float := S754_finite false 11744051 (-24).
Definition f32_below_0_7 : spec_float := S754_finite false 11744050 (-24).
Definition f32_2_m23 : spec_float := S754_finite false 8388608 (-46).
Definition f32_2_m24 : spec_float := S754_finite false 8388608 (-47).

End Samples.

(** * Proofs *)

(** ** Clamping *)

Ltac case_clamp := unfold clamp; repeat case_decide.

Lemma clamp_bounds x lo hi : lo <= hi → lo <= clamp x lo hi <= hi.
Proof. case_clamp; lra. Qed.

Lemma clamp_id x lo hi : lo <= x <= hi → clamp x lo hi = x.
Proof. case_clamp; lra. Qed.

Lemma clamp_mono x y lo hi : lo <= hi → x <= y → clamp x lo hi <= clamp y lo hi.
Proof. case_clamp; lra. Qed.

(** ** The analyzer *)

Section Analyzer.
Import EmotionalBridge.

Lemma trend_of_diffs_priority vd ad : priority_rule vd ad (trend_of_diffs vd ad).
Proof.
  unfold priority_rule, trend_of_diffs; cbv zeta.
  repeat case_decide; repeat split; intros; try done; tauto.
Qed.

Lemma priority_rule_functional vd ad r1 r2 :
  priority_rule vd ad r1 → priority_rule vd ad r2 → r1 = r2.
Proof.
  unfold priority_rule; cbv zeta.
  intros (A1 & A2 & A3 & A4 & A5) (B1 & B2 & B3 & B4 & B5).
  destruct (decide (Rabs vd < 0.1 ∧ Rabs ad < 0.1)) as [c1|c1];
    [by rewrite A1, B1|].
  destruct (decide (0.3 < Rabs vd ∨ 0.3 < Rabs ad)) as [c2|c2];
    [by rewrite A2, B2|].
  destruct (decide (0.1 < vd ∨ 0.1 < ad)) as [c3|c3];
    [by rewrite A3, B3|].
  destruct (decide (vd < -0.1 ∨ ad < -0.1)) as [c4|c4];
    [by rewrite A4, B4|].
  by rewrite A5, B5.
Qed.

Lemma recent_length history : length (recent history) = (5 `min` length history)%nat.
Proof. unfold recent. rewrite length_take. lia. Qed.

Lemma recent_take5 history : recent history = take 5 history.
Proof.
  unfold recent. destruct (decide (5 ≤ length history)%nat).
  - by rewrite Nat.min_l.
  - rewrite Nat.min_r by lia. rewrite !take_ge; [done | lia..].
Qed.

Lemma recent_ends history :
  (2 ≤ length history)%nat →
  ∃ oldest newest,
    head (recent history) = Some oldest ∧
    last (recent history) = Some newest ∧
    history !! 0%nat = Some oldest ∧
    history !! (5 `min` length history - 1)%nat = Some newest.
Proof.
  intros Hlen.
  destruct (lookup_lt_is_Some_2 history 0) as [o Ho]; [lia|].
  destruct (lookup_lt_is_Some_2 history (5 `min` length history - 1))
    as [n Hn]; [lia|].
  exists o, n. repeat split; try done.
  - rewrite head_lookup. unfold recent. rewrite lookup_take_lt; [done | lia].
  - rewrite last_lookup, recent_length. unfold recent.
    replace (pred (5 `min` length history)) with (5 `min` length history - 1)%nat
      by lia.
    rewrite lookup_take_lt; [done | lia].
Qed.

(** The unwraps never panic. *)
Lemma analyze_emotional_trend_total history :
  is_Some (analyze_emotional_trend history).
Proof.
  unfold analyze_emotional_trend. case_decide; [by eexists|].
  destruct (recent_ends history) as (o & n & -> & -> & _); [lia|].
  by eexists.
Qed.

(** Observations after the fifth never reach the result. *)
Lemma analyze_emotional_trend_prefix history tail :
  length history = 5%nat →
  analyze_emotional_trend (history ++ tail) = analyze_emotional_trend history.
Proof.
  intros Hlen. unfold analyze_emotional_trend.
  rewrite !recent_take5, length_app, Hlen.
  rewrite take_app_le by lia.
  repeat case_decide; try lia. done.
Qed.

(** Up to five observations the source's window is the specification's. *)
Lemma recent_window_spec_short history :
  (length history ≤ 5)%nat → recent history = window_spec history.
Proof.
  intros Hlen. unfold recent, window_spec.
  rewrite Nat.min_r by lia. rewrite take_ge by lia.
  by replace (length history - length history)%nat with 0%nat by lia.
Qed.

Lemma path_length_snoc (l : list EmotionalPoint) p q :
  path_length (l ++ [p; q]) = path_length (l ++ [p]) + distance p q.
Proof.
  induction l as [|x [|y l] IH]; simpl in *; lra.
Qed.

(** The loop after [n] rounds has summed the first [n] consecutive pairs. *)
Lemma complexity_loop_prefix (t : list EmotionalPoint) (n : nat) :
  (S n ≤ length t)%nat →
  foldl (complexity_step t) (Some 0) (seq 1 n)
  = Some (path_length (take (S n) t)).
Proof.
  induction n as [|n IH]; intros Hn.
  - simpl. by destruct t as [|p [|q t]].
  - rewrite seq_S, foldl_app, IH by lia. simpl.
    destruct (lookup_lt_is_Some_2 t n) as [p Hp]; [lia|].
    destruct (lookup_lt_is_Some_2 t (S n)) as [q Hq]; [lia|].
    replace (n - 0)%nat with n by lia. rewrite Hp, Hq. simpl.
    rewrite (take_S_r t (S n) q Hq), (take_S_r t n p Hp).
    rewrite <- app_assoc. simpl. by rewrite path_length_snoc.
Qed.

Lemma complexity_loop_full (t : list EmotionalPoint) :
  (2 ≤ length t)%nat →
  foldl (complexity_step t) (Some 0) (seq 1 (length t - 1))
  = Some (path_length t).
Proof.
  intros Hlen. rewrite complexity_loop_prefix by lia.
  by rewrite take_ge by lia.
Qed.

Lemma distance_nonneg p q : 0 <= distance p q.
Proof. apply sqrt_pos. Qed.

Lemma path_length_nonneg t : 0 <= path_length t.
Proof.
  induction t as [|p [|q t] IH]; simpl in *; try lra.
  pose proof (distance_nonneg p q). lra.
Qed.

Lemma trend_of_diffs_eval vd ad r :
  priority_rule vd ad r → trend_of_diffs vd ad = r.
Proof.
  intros Hr. apply (priority_rule_functional vd ad); [|done].
  apply trend_of_diffs_priority.
Qed.

(** Two observations differing by 0.05 and 0.02: both diffs below 0.1. *)
Example analyze_small_change :
  analyze_emotional_trend
    [Examples.observation 1 0 0; Examples.observation 2 0.05 0.02]
  = Some Stable.
Proof.
  unfold analyze_emotional_trend; simpl. f_equal.
  rewrite !Rminus_0_r. apply trend_of_diffs_eval.
  unfold priority_rule; cbv zeta. rewrite !Rabs_pos_eq by lra.
  repeat split; intros; try done; lra.
Qed.

(** A rise of 0.15 in valence is [Ascending]. *)
Example analyze_moderate_rise :
  analyze_emotional_trend
    [Examples.observation 1 0 0; Examples.observation 2 0.15 0]
  = Some Ascending.
Proof.
  unfold analyze_emotional_trend; simpl. f_equal.
  rewrite !Rminus_0_r. apply trend_of_diffs_eval.
  unfold priority_rule; cbv zeta. rewrite !Rabs_pos_eq by lra.
  repeat split; intros; try done; lra.
Qed.

(** A rise of exactly 0.1 passes every guard and ends in the last
    [Stable]. *)
Example analyze_boundary_fallback :
  analyze_emotional_trend
    [Examples.observation 1 0 0; Examples.observation 2 0.1 0]
  = Some Stable
  ∧ ¬ (Rabs (0.1 - 0) < 0.1 ∧ Rabs (0 - 0) < 0.1).
Proof.
  split.
  - unfold analyze_emotional_trend; simpl. f_equal.
    rewrite !Rminus_0_r. apply trend_of_diffs_eval.
    unfold priority_rule; cbv zeta. rewrite !Rabs_pos_eq by lra.
    repeat split; intros; try done; lra.
  - rewrite !Rminus_0_r, !Rabs_pos_eq by lra. lra.
Qed.

(** C5. [analyze_emotional_trend] answers [Stable] for fewer than two
    observations; otherwise it answers by the priority rule (Stable when
    both absolute diffs are below 0.1, else Volatile when one is above 0.3,
    else Ascending when one diff is above 0.1, else Descending when one is
    below -0.1, else Stable) applied to the valence and arousal differences
    between the last and the first entry of its window. *)
Theorem analyze_emotional_trend_priority (history : list EmotionalMetadata) :
  ((length history < 2)%nat ∧ analyze_emotional_trend history = Some Stable)
  ∨ ((2 ≤ length history)%nat ∧
     ∃ oldest newest r,
       head (recent history) = Some oldest ∧
       last (recent history) = Some newest ∧
       analyze_emotional_trend history = Some r ∧
       priority_rule (valence newest - valence oldest)
                     (arousal newest - arousal oldest) r).
Proof.
  destruct (decide (length history < 2)%nat) as [Hlt|Hge].
  - left. split; [done|]. unfold analyze_emotional_trend. by case_decide.
  - right. split; [lia|].
    destruct (recent_ends history) as (o & n & Ho & Hn & _); [lia|].
    exists o, n, (trend_of_diffs (valence n - valence o) (arousal n - arousal o)).
    split; [done|]. split; [done|]. split.
    + unfold analyze_emotional_trend. case_decide; [lia|].
      by rewrite Ho, Hn.
    + apply trend_of_diffs_priority.
Qed.

(** C2. On five calm observations followed by a jump of 0.4 in valence the
    source looks at the first five entries and answers [Stable], while the
    window of the last five entries gives [Volatile]. *)
Theorem analyze_emotional_trend_window_is_prefix :
  recent Examples.late_jump = take 5 Examples.late_jump ∧
  analyze_emotional_trend Examples.late_jump = Some Stable ∧
  classify_trend_spec Examples.late_jump = Some Volatile.
Proof.
  split; [reflexivity|]. split.
  - unfold analyze_emotional_trend, Examples.late_jump. simpl.
    unfold trend_of_diffs. rewrite Rminus_diag, Rabs_R0.
    case_decide as H; [done|]. exfalso. apply H. lra.
  - unfold classify_trend_spec, Examples.late_jump. simpl.
    unfold trend_of_diffs. rewrite !Rminus_0_r, Rabs_R0.
    rewrite (Rabs_pos_eq 0.4) by lra.
    case_decide as H1; [lra|]. case_decide as H2; [done|].
    exfalso. apply H2. lra.
Qed.

Lemma foldl_total_acc (g : EmotionalPoint * EmotionalPoint → R)
    (l : list (EmotionalPoint * EmotionalPoint)) (a : R) :
  foldl (λ total pair, total + g pair) a l
  = a + foldl (λ total pair, total + g pair) 0 l.
Proof.
  revert a. induction l as [|x l IH]; intros a; simpl; [lra|].
  rewrite (IH (a + g x)), (IH (0 + g x)). lra.
Qed.

(** The code's running total is the specification's. *)
Lemma path_length_total_distance_spec (t : list EmotionalPoint) :
  path_length t = total_distance_spec t.
Proof.
  unfold total_distance_spec.
  induction t as [|p [|q t] IH]; [done..|].
  change (path_length (p :: q :: t)) with (distance p q + path_length (q :: t)).
  rewrite IH.
  change (zip (p :: q :: t) (drop 1 (p :: q :: t)))
    with ((p, q) :: zip (q :: t) (drop 1 (q :: t))).
  cbn [foldl]. cbn [fst snd].
  rewrite (foldl_total_acc _ _ (0 + _)). unfold distance.
  rewrite <- !Rsqr_pow2. lra.
Qed.

(** C6. [calculate_complexity] never panics and changes no field but
    [emotional_complexity], which it sets to 0.0 for a trajectory of fewer
    than two points and otherwise to [clamp(total / len, 0, 1)], where
    [total] adds up, over the consecutive pairs, the Euclidean distance
    [sqrt((v_i - v_{i-1})^2 + (a_i - a_{i-1})^2)] of their (valence, arousal)
    points and [len] is the number of points. *)
Theorem calculate_complexity_euclidean (self : EmotionalMetadata) :
  ∃ self',
    calculate_complexity self = Some self' ∧
    emotional_complexity self'
    = (if decide (length (emotional_trajectory self) < 2)%nat then 0
       else clamp (total_distance_spec (emotional_trajectory self)
                   / INR (length (emotional_trajectory self))) 0 1) ∧
    emotional_trajectory self' = emotional_trajectory self ∧
    valence self' = valence self ∧ arousal self' = arousal self ∧
    dominance self' = dominance self ∧ timestamp self' = timestamp self.
Proof.
  unfold calculate_complexity.
  destruct (decide (length (emotional_trajectory self) < 2)%nat) as [Hlt|Hge].
  - eexists. split; [done|]. by repeat split.
  - rewrite complexity_loop_full by lia.
    eexists. split; [done|]. simpl.
    rewrite path_length_total_distance_spec. by repeat split.
Qed.

(** From (0, 0) to (0.3, 0.4) the distance is 0.5, over two points 0.25. *)
Example calculate_complexity_two_points :
  emotional_complexity <$> calculate_complexity Examples.two_points = Some 0.25.
Proof.
  unfold calculate_complexity, Examples.two_points; simpl. do 2 f_equal.
  unfold distance; simpl.
  replace ((0.3 - 0) * ((0.3 - 0) * 1) + (0.4 - 0) * ((0.4 - 0) * 1))
    with (0.5 * 0.5) by lra.
  rewrite sqrt_square by lra. rewrite clamp_id; lra.
Qed.

End Analyzer.

(** ** The reputation engine *)

Section Reputation.
Import Soulbound.

Lemma get_reputation_multiplier_match level :
  match level with
  | Basic => 0.8 | Verified => 1.0 | Enhanced => 1.2 | Premium => 1.5
  end = get_reputation_multiplier level.
Proof. by destruct level. Qed.

Lemma blended_scores_lookup d (old new : gmap string R) category :
  blended_scores d old new !! category =
  match new !! category with
  | Some new_score => Some (blend (default 0.5 (old !! category)) new_score d)
  | None => old !! category
  end.
Proof. unfold blended_scores. by rewrite lookup_merge; destruct (old !! _), (new !! _). Qed.

(** The loop over a duplicate-free list of entries. *)
Lemma update_category_loop d (entries : list (string * R)) (scores : gmap string R) :
  NoDup entries.*1 →
  foldl (update_category d) scores entries
  = blended_scores d scores (list_to_map entries).
Proof.
  revert scores. induction entries as [|[k s] entries IH]; intros scores Hnd.
  - simpl. apply map_eq; intros j. by rewrite blended_scores_lookup, lookup_empty.
  - simpl in *. apply NoDup_cons in Hnd as [Hk Hnd].
    rewrite IH by done. apply map_eq; intros j.
    rewrite !blended_scores_lookup.
    destruct (decide (j = k)) as [->|Hne].
    + rewrite lookup_insert_eq.
      rewrite (not_elem_of_list_to_map_1 entries k) by done.
      by rewrite lookup_insert_eq.
    + by rewrite !lookup_insert_ne by done.
Qed.

(** Whatever the iteration order, the loop computes [blended_scores]. *)
Lemma update_category_hash_order d (w : World) (scores new : gmap string R) :
  foldl (update_category d) scores (hash_order w new)
  = blended_scores d scores new.
Proof.
  pose proof (hash_order_perm w new) as Hperm.
  assert (NoDup (hash_order w new).*1) as Hnd.
  { rewrite Hperm. apply NoDup_fst_map_to_list. }
  rewrite update_category_loop by done.
  f_equal. rewrite (list_to_map_proper _ _ Hnd Hperm).
  apply list_to_map_to_list.
Qed.

Section Helpers.
Variable DECAY_HALF_LIFE : R.
Variable calculate_exponential_decay : Z → Z → R → R.
Variable calculate_weighted_score_map : gmap string R → R.
Variable calculate_temporal_stability : gmap string R → Z → R.


(** The record that a successful call returns and stores. *)
Lemma update_reputation_found w self token_id new_activity token :
  tokens self !! token_id = Some token →
  ∃ score',
    update_reputation DECAY_HALF_LIFE calculate_exponential_decay
       calculate_weighted_score_map calculate_temporal_stability
       w self token_id new_activity
    = (Ok score',
       put_token self token_id
         {| reputation_score := score';
            last_updated := current_timestamp w |}) ∧
    category_scores score'
    = blended_scores
        (calculate_exponential_decay (last_updated token)
           (current_timestamp w) DECAY_HALF_LIFE)
        (category_scores (reputation_score token))
        (activity_scores new_activity) ∧
    verification_level score'
    = verification_level (reputation_score token) ∧
    overall_score score'
    = clamp (calculate_weighted_score_map (category_scores score')
             * get_reputation_multiplier (verification_level score')) 0 1.
Proof.
  intros Htok. unfold update_reputation, get_token_mut.
  rewrite Htok. eexists. split; [reflexivity|]. cbn.
  rewrite update_category_hash_order, get_reputation_multiplier_match.
  done.
Qed.

Lemma update_reputation_missing w self token_id new_activity :
  tokens self !! token_id = None →
  update_reputation DECAY_HALF_LIFE calculate_exponential_decay
       calculate_weighted_score_map calculate_temporal_stability
       w self token_id new_activity = (Err (TokenNotFound token_id), self).
Proof.
  intros Htok. unfold update_reputation, get_token_mut.
  by rewrite Htok.
Qed.

(** C1. On a registered token, [update_reputation] leaves under every
    category key of the activity the value
    [clamp(current * decay + new_score * (1 - decay), 0, 1)], where
    [current] is the score stored for that key before the call, or 0.5
    when there was none, and [decay] is the value of
    [calculate_exponential_decay] for the token's last update and the
    current time. *)
Theorem update_reputation_blends w self token_id new_activity token
    category new_score :
  tokens self !! token_id = Some token →
  activity_scores new_activity !! category = Some new_score →
  let current :=
    default 0.5 (category_scores (reputation_score token) !! category) in
  let decay :=
    calculate_exponential_decay (last_updated token) (current_timestamp w)
                                DECAY_HALF_LIFE in
  ∃ score' token',
    (update_reputation DECAY_HALF_LIFE calculate_exponential_decay
       calculate_weighted_score_map calculate_temporal_stability
       w self token_id new_activity).1 = Ok score' ∧
    tokens (update_reputation DECAY_HALF_LIFE calculate_exponential_decay
       calculate_weighted_score_map calculate_temporal_stability
       w self token_id new_activity).2 !! token_id = Some token' ∧
    reputation_score token' = score' ∧
    category_scores score' !! category
    = Some (clamp (current * decay + new_score * (1 - decay)) 0 1).
Proof.
  intros Htok Hact current decay.
  destruct (update_reputation_found w self token_id new_activity token Htok)
    as (score' & -> & Hscores & _).
  eexists score', _. split; [done|]. split; [apply lookup_insert_eq|].
  split; [done|].
  by rewrite Hscores, blended_scores_lookup, Hact.
Qed.

(** C7. After a successful [update_reputation], every category key that
    the activity does not mention has exactly the entry it had before
    (present with the same score, or still absent), and the verification
    level is the one of the old state. *)
Theorem update_reputation_frame w self token_id new_activity token score' :
  tokens self !! token_id = Some token →
  (update_reputation DECAY_HALF_LIFE calculate_exponential_decay
       calculate_weighted_score_map calculate_temporal_stability
       w self token_id new_activity).1 = Ok score' →
  (∀ category,
     activity_scores new_activity !! category = None →
     category_scores score' !! category
     = category_scores (reputation_score token) !! category) ∧
  verification_level score' = verification_level (reputation_score token).
Proof.
  intros Htok Hok.
  destruct (update_reputation_found w self token_id new_activity token Htok)
    as (score'' & Heq & Hscores & Hlevel & _).
  rewrite Heq in Hok. simpl in Hok. injection Hok as ->.
  split; [|done]. intros category Hact.
  by rewrite Hscores, blended_scores_lookup, Hact.
Qed.

(** C3, as the code has it. When the current time is not before the
    token's last update, [update_reputation] fails exactly when
    [get_token_mut] finds no token under the id, and then the manager is
    unchanged; on a registered token it succeeds whatever the activity
    holds, an out-of-range score or no score at all, and stamps the token
    with the current time.  Nothing is said of a clock that reads less than
    [last_updated]. *)
Theorem update_reputation_fails_iff_unknown_token w self token_id new_activity :
  (∀ token, tokens self !! token_id = Some token →
            (last_updated token ≤ current_timestamp w)%Z) →
  let r := update_reputation DECAY_HALF_LIFE calculate_exponential_decay
             calculate_weighted_score_map calculate_temporal_stability
             w self token_id new_activity in
  (is_ok r.1 = false ↔ tokens self !! token_id = None) ∧
  (is_ok r.1 = false → r = (Err (TokenNotFound token_id), self)) ∧
  (is_ok r.1 = true →
     ∃ token', tokens r.2 !! token_id = Some token' ∧
               last_updated token' = current_timestamp w).
Proof.
  intros _ r. subst r.
  destruct (tokens self !! token_id) as [token|] eqn:Htok.
  - destruct (update_reputation_found w self token_id new_activity token Htok)
      as (score' & -> & _).
    simpl. split; [split; done|]. split; [done|].
    intros _. eexists. split; [apply lookup_insert_eq | done].
  - rewrite update_reputation_missing by done. simpl.
    split; [done|]. split; done.
Qed.

(** C9, as the code has it. [update_reputation] is a function of the
    manager, the token id, the activity and the reading of the clock:
    two worlds whose clocks agree give the same result and the same
    manager, in whatever order each walks the activity's hash map. *)
Theorem update_reputation_clock_determined w1 w2 self token_id new_activity :
  current_timestamp w1 = current_timestamp w2 →
  update_reputation DECAY_HALF_LIFE calculate_exponential_decay
    calculate_weighted_score_map calculate_temporal_stability
    w1 self token_id new_activity
  = update_reputation DECAY_HALF_LIFE calculate_exponential_decay
      calculate_weighted_score_map calculate_temporal_stability
      w2 self token_id new_activity.
Proof.
  intros Hclock. unfold update_reputation.
  destruct (get_token_mut self token_id) as [token|e]; [|done].
  by rewrite !update_category_hash_order, Hclock.
Qed.
End Helpers.

(** *** With the helpers as the specification describes them *)

Lemma ln2_pos : 0 < ln 2.
Proof. pose proof ln_lt_2. lra. Qed.

Lemma exponential_decay_spec_antitone (last now1 now2 : Z) (half_life : R) :
  0 < half_life → (now1 ≤ now2)%Z →
  exponential_decay_spec last now2 half_life
  <= exponential_decay_spec last now1 half_life.
Proof.
  intros Hh Hle. unfold exponential_decay_spec.
  assert (IZR (now1 - last) <= IZR (now2 - last)) as Hz by (apply IZR_le; lia).
  assert (- ln 2 * IZR (now2 - last) / half_life
          <= - ln 2 * IZR (now1 - last) / half_life) as Hx.
  { pose proof ln2_pos. unfold Rdiv.
    apply Rmult_le_compat_r; [left; by apply Rinv_0_lt_compat | nra]. }
  destruct Hx as [Hx|Hx]; [left; by apply exp_increasing | right; by rewrite Hx].
Qed.

Lemma exponential_decay_spec_zero (last : Z) (half_life : R) :
  exponential_decay_spec last last half_life = 1.
Proof.
  unfold exponential_decay_spec. rewrite Z.sub_diag.
  replace (- ln 2 * 0 / half_life) with 0 by (unfold Rdiv; ring).
  apply exp_0.
Qed.

Lemma exponential_decay_spec_range (last now : Z) (half_life : R) :
  0 < half_life → (last ≤ now)%Z →
  0 < exponential_decay_spec last now half_life <= 1.
Proof.
  intros Hh Hle. split; [apply exp_pos|].
  rewrite <- (exponential_decay_spec_zero last half_life).
  by apply exponential_decay_spec_antitone.
Qed.

Lemma exponential_decay_spec_half_life (last : Z) (h : Z) :
  (0 < h)%Z → exponential_decay_spec last (last + h) (IZR h) = / 2.
Proof.
  intros Hh. unfold exponential_decay_spec.
  replace (last + h - last)%Z with h by lia.
  assert (0 < IZR h) by (by apply IZR_lt).
  replace (- ln 2 * IZR h / IZR h) with (- ln 2) by (field; lra).
  rewrite exp_Ropp, exp_ln by lra. done.
Qed.

Lemma blend_toward (c s d1 d2 : R) :
  0 <= d2 <= d1 → d1 <= 1 →
  Rabs (blend c s d2 - s) <= Rabs (blend c s d1 - s) ∧
  Rabs (blend c s d1 - c) <= Rabs (blend c s d2 - c) ∧
  (c <= s → blend c s d1 <= blend c s d2) ∧
  (s <= c → blend c s d2 <= blend c s d1).
Proof.
  intros [H0 H21] H1. unfold blend; cbv zeta.
  assert (c * d1 + s * (1 - d1) = s + (c - s) * d1) as -> by ring.
  assert (c * d2 + s * (1 - d2) = s + (c - s) * d2) as -> by ring.
  destruct (Rle_dec c s) as [Hcs|Hcs].
  - assert ((c - s) * d1 <= (c - s) * d2) by nra.
    assert (c - s <= (c - s) * d1) by nra.
    assert ((c - s) * d2 <= 0) by nra.
    generalize dependent ((c - s) * d1). generalize dependent ((c - s) * d2).
    intros x2 ? x1 ? ?.
    repeat split; case_clamp; unfold Rabs; repeat destruct Rcase_abs; lra.
  - assert ((c - s) * d2 <= (c - s) * d1) by nra.
    assert ((c - s) * d1 <= c - s) by nra.
    assert (0 <= (c - s) * d2) by nra.
    generalize dependent ((c - s) * d1). generalize dependent ((c - s) * d2).
    intros x2 ? x1 ? ?.
    repeat split; case_clamp; unfold Rabs; repeat destruct Rcase_abs; lra.
Qed.

Lemma exponential_decay_spec_half_lives (last h : Z) (k : nat) :
  (0 < h)%Z →
  exponential_decay_spec last (last + Z.of_nat k * h) (IZR h) = / 2 ^ k.
Proof.
  intros Hh. unfold exponential_decay_spec.
  replace (last + Z.of_nat k * h - last)%Z with (Z.of_nat k * h)%Z by lia.
  assert (0 < IZR h) by (by apply IZR_lt).
  rewrite mult_IZR, <- INR_IZR_INZ.
  replace (- ln 2 * (INR k * IZR h) / IZR h) with (- (INR k * ln 2))
    by (field; lra).
  rewrite exp_Ropp. f_equal.
  induction k as [|k IH]; [simpl; rewrite Rmult_0_l; apply exp_0|].
  rewrite S_INR, Rmult_plus_distr_r, Rmult_1_l, exp_plus, IH, exp_ln by lra.
  simpl. lra.
Qed.

(** [grid_round], rounding to the nearest multiple of 2^-24, is such a
    rounding. *)
Lemma grid_round_within : Rounded.rounds_within Rounded.grid_round.
Proof.
  intros x _. unfold Rounded.grid_round.
  destruct (base_Int_part (x * 2 ^ 24 + / 2)) as [H1 H2].
  set (n := IZR (Int_part (x * 2 ^ 24 + / 2))) in *.
  assert (0 < 2 ^ 24) as Hp by lra.
  assert (n / 2 ^ 24 - x = (n - x * 2 ^ 24) / 2 ^ 24) as -> by (field; lra).
  apply Rabs_le. split.
  - apply (Rmult_le_reg_r (2 ^ 24)); [done|].
    unfold Rdiv. rewrite Rmult_assoc, Rinv_l by lra.
    rewrite <- Ropp_mult_distr_l, Rinv_l by lra. lra.
  - apply (Rmult_le_reg_r (2 ^ 24)); [done|].
    unfold Rdiv. rewrite Rmult_assoc, !Rinv_l by lra. lra.
Qed.

Lemma Rabs_bound (x y e : R) : Rabs (x - y) <= e → y - e <= x <= y + e.
Proof. unfold Rabs. destruct Rcase_abs; lra. Qed.

Lemma clamp_unit_near (u x : R) :
  0 <= x <= 1 → Rabs (clamp u 0 1 - x) <= Rabs (u - x).
Proof.
  intros Hx. case_clamp; unfold Rabs; repeat destruct Rcase_abs; lra.
Qed.

Lemma blend_unclamped c s d :
  0 <= d <= 1 → 0 <= c <= 1 → 0 <= s <= 1 →
  blend c s d = c * d + s * (1 - d).
Proof.
  intros Hd Hc Hs. unfold blend; cbv zeta. apply clamp_id. nra.
Qed.

(** Each of the four roundings of the blend is off by at most 2^-24, and so
    the rounded blend is within 4 * 2^-24 of the exact one. *)
Lemma rounded_blend_error (rnd : R → R) (c s d : R) :
  Rounded.rounds_within rnd →
  0 <= d <= 1 → 0 <= c <= 1 → 0 <= s <= 1 →
  Rabs (Rounded.blend rnd c s d - blend c s d) <= 4 * / 2 ^ 24.
Proof.
  intros Hrnd Hd Hc Hs. unfold Rounded.rounds_within in Hrnd.
  assert (0 < / 2 ^ 24 < / 1000) as Heta.
  { split; [apply Rinv_0_lt_compat; lra|].
    apply Rinv_lt_contravar; lra. }
  set (eta := / 2 ^ 24) in *.
  rewrite blend_unclamped by done.
  assert (0 <= c * d <= 1) as Hcd by nra.
  assert (0 <= s * (1 - d) <= 1) as Hsd by nra.
  assert (0 <= c * d + s * (1 - d) <= 1) as Hmix by nra.
  unfold Rounded.blend; cbv zeta.
  assert (Rabs (c * d) <= 2) as H1 by (apply Rabs_le; lra).
  pose proof (Rabs_bound _ _ _ (Hrnd _ H1)) as Ha.
  assert (Rabs (1 - d) <= 2) as H2 by (apply Rabs_le; lra).
  pose proof (Rabs_bound _ _ _ (Hrnd _ H2)) as Hb.
  set (a := rnd (c * d)) in *. set (b := rnd (1 - d)) in *.
  assert (s * (1 - d) - eta <= s * b <= s * (1 - d) + eta) as Hsb.
  { assert (0 <= s * (b - (1 - d) + eta)) by (apply Rmult_le_pos; lra).
    assert (0 <= s * (1 - d + eta - b)) by (apply Rmult_le_pos; lra).
    assert (0 <= (1 - s) * eta) by (apply Rmult_le_pos; lra).
    lra. }
  assert (Rabs (s * b) <= 2) as H3 by (apply Rabs_le; lra).
  pose proof (Rabs_bound _ _ _ (Hrnd _ H3)) as Ht.
  set (t := rnd (s * b)) in *.
  assert (Rabs (a + t) <= 2) as H4 by (apply Rabs_le; lra).
  pose proof (Rabs_bound _ _ _ (Hrnd _ H4)) as Hu.
  set (u := rnd (a + t)) in *.
  etrans; [apply clamp_unit_near; lra|].
  apply Rabs_le. lra.
Qed.

(** The exact blend moves by at most the change of the decay factor. *)
Lemma blend_decay_lipschitz (c s d d' : R) :
  0 <= d <= 1 → 0 <= d' <= 1 → 0 <= c <= 1 → 0 <= s <= 1 →
  Rabs (blend c s d' - blend c s d) <= Rabs (d' - d).
Proof.
  intros Hd Hd' Hc Hs. rewrite !blend_unclamped by done.
  replace (c * d' + s * (1 - d') - (c * d + s * (1 - d)))
    with ((c - s) * (d' - d)) by ring.
  rewrite Rabs_mult. rewrite <- (Rmult_1_l (Rabs (d' - d))) at 2.
  apply Rmult_le_compat_r; [apply Rabs_pos|]. apply Rabs_le. lra.
Qed.

(** With no rounding at all the rounded blend is the blend of
    [update_category]. *)
Lemma rounded_blend_exact (c s d : R) :
  Rounded.blend (λ x, x) c s d = blend c s d.
Proof. reflexivity. Qed.

(** C8, as the code has it. Take prior and activity score in [0, 1], a
    positive half life and two clock readings, neither before the last
    update, the second not before the first; let [decay1] and [decay2] in
    [0, 1] be the decay factors of the two calls, each within [err] of
    [exp(-ln(2) * elapsed / HALF_LIFE)], and let every operation of the
    blend round its result by at most 2^-24, as binary32 does on [-2, 2].
    Then each score is within 2^-22 of the mix
    [prior * decay + new * (1 - decay)], and the score of the later call is
    farther from the activity's score, and nearer to the prior, by at most
    [2^-21 + 2 * err]. *)
Theorem blend_decay_monotone_up_to_rounding (rnd : R → R)
    (DECAY_HALF_LIFE : R) (last_updated now1 now2 : Z)
    (prior new_score decay1 decay2 err : R) :
  Rounded.rounds_within rnd →
  0 < DECAY_HALF_LIFE →
  (last_updated ≤ now1)%Z → (now1 ≤ now2)%Z →
  0 <= prior <= 1 → 0 <= new_score <= 1 →
  0 <= decay1 <= 1 → 0 <= decay2 <= 1 →
  Rabs (decay1 - exponential_decay_spec last_updated now1 DECAY_HALF_LIFE)
    <= err →
  Rabs (decay2 - exponential_decay_spec last_updated now2 DECAY_HALF_LIFE)
    <= err →
  Rabs (Rounded.blend rnd prior new_score decay1
        - (prior * decay1 + new_score * (1 - decay1))) <= / 2 ^ 22 ∧
  Rabs (Rounded.blend rnd prior new_score decay2
        - (prior * decay2 + new_score * (1 - decay2))) <= / 2 ^ 22 ∧
  Rabs (Rounded.blend rnd prior new_score decay2 - new_score)
    <= Rabs (Rounded.blend rnd prior new_score decay1 - new_score)
       + (/ 2 ^ 21 + 2 * err) ∧
  Rabs (Rounded.blend rnd prior new_score decay1 - prior)
    <= Rabs (Rounded.blend rnd prior new_score decay2 - prior)
       + (/ 2 ^ 21 + 2 * err).
Proof.
  intros Hrnd Hh Hlast Hle Hp Hs Hd1 Hd2 He1 He2.
  assert (/ 2 ^ 22 = 4 * / 2 ^ 24) as -> by (field; lra).
  split.
  { rewrite <- (blend_unclamped prior new_score decay1) by done.
    by apply rounded_blend_error. }
  split.
  { rewrite <- (blend_unclamped prior new_score decay2) by done.
    by apply rounded_blend_error. }
  set (e1 := exponential_decay_spec last_updated now1 DECAY_HALF_LIFE) in *.
  set (e2 := exponential_decay_spec last_updated now2 DECAY_HALF_LIFE) in *.
  assert (0 < e1 <= 1) as He1r by (by apply exponential_decay_spec_range).
  assert (0 < e2 <= 1) as He2r
    by (apply exponential_decay_spec_range; [done | lia]).
  assert (e2 <= e1) as Hee by (by apply exponential_decay_spec_antitone).
  destruct (blend_toward prior new_score e1 e2) as (Ha & Hb & _); [lra..|].
  pose proof (rounded_blend_error rnd prior new_score decay1 Hrnd Hd1 Hp Hs)
    as Hr1.
  pose proof (rounded_blend_error rnd prior new_score decay2 Hrnd Hd2 Hp Hs)
    as Hr2.
  pose proof (blend_decay_lipschitz prior new_score e1 decay1
                ltac:(lra) Hd1 Hp Hs) as Hl1.
  pose proof (blend_decay_lipschitz prior new_score e2 decay2
                ltac:(lra) Hd2 Hp Hs) as Hl2.
  assert (/ 2 ^ 21 = 8 * / 2 ^ 24) as -> by (field; lra).
  set (eta := / 2 ^ 24) in *.
  apply Rabs_bound in Hr1, Hr2.
  assert (Rabs (blend prior new_score decay1 - blend prior new_score e1)
          <= err) as Hl1' by lra.
  assert (Rabs (blend prior new_score decay2 - blend prior new_score e2)
          <= err) as Hl2' by lra.
  apply Rabs_bound in Hl1', Hl2'.
  clear Hl1 Hl2 He1 He2.
  generalize dependent (Rounded.blend rnd prior new_score decay1).
  generalize dependent (Rounded.blend rnd prior new_score decay2).
  generalize dependent (blend prior new_score decay1).
  generalize dependent (blend prior new_score decay2).
  generalize dependent (blend prior new_score e1).
  generalize dependent (blend prior new_score e2).
  intros x2 x1 Ha Hb y2 Hy2 y1 Hy1 v2 Hv2 v1 Hv1.
  split; unfold Rabs in *; repeat destruct Rcase_abs; lra.
Qed.

Lemma score_after_found H decay weighted stab w self token_id new_activity
    token category :
  tokens self !! token_id = Some token →
  score_after (update_reputation H decay weighted stab w self token_id
                 new_activity) category
  = blended_scores (decay (last_updated token) (current_timestamp w) H)
      (category_scores (reputation_score token))
      (activity_scores new_activity) !! category.
Proof.
  intros Htok.
  destruct (update_reputation_found H decay weighted stab w self token_id
              new_activity token Htok) as (score' & Heq & Hscores & _).
  unfold score_after. by rewrite Heq, <- Hscores.
Qed.


End Reputation.

(** ** Concrete calls *)

Section ConcreteCalls.
Import Soulbound Examples.

Lemma manager0_token : tokens manager0 !! 1%N = Some token0.
Proof. apply lookup_singleton_eq. Qed.

Lemma creative_activity_score :
  activity_scores creative_activity !! "creative_output_quality" = Some 1.
Proof. apply lookup_singleton_eq. Qed.

Lemma token0_prior :
  category_scores (reputation_score token0) !! "creative_output_quality" = None.
Proof. by apply lookup_singleton_ne. Qed.

Lemma creative_call_score now :
  score_after (creative_call now) "creative_output_quality"
  = Some (blend 0.5 1 (exponential_decay_spec 100 now half_life)).
Proof.
  unfold creative_call, update_reputation_spec_helpers.
  rewrite (score_after_found _ _ _ _ _ _ _ _ token0) by apply manager0_token.
  by rewrite blended_scores_lookup, creative_activity_score, token0_prior.
Qed.

(** C3, counterexample. A call whose activity carries the score 2 succeeds,
    and so does a call with an empty activity, which moreover changes the
    manager (the token is stamped with the current time, 200 after 100). *)
Lemma update_reputation_accepts_invalid_input :
  activity_scores out_of_range_activity !! "creative_output_quality" = Some 2 ∧
  ¬ (0 <= 2 <= 1) ∧
  is_ok out_of_range_call.1 = true ∧
  activity_scores empty_activity = ∅ ∧
  is_ok empty_call.1 = true ∧
  empty_call.2 ≠ manager0.
Proof.
  split; [apply lookup_singleton_eq|].
  split; [lra|]. split; [reflexivity|]. split; [reflexivity|].
  split; [reflexivity|].
  unfold empty_call, update_reputation_spec_helpers.
  destruct (update_reputation_found half_life exponential_decay_spec
              weighted_score_spec constant_stability (world_at 200)
              manager0 1%N empty_activity token0 manager0_token)
    as (score' & -> & _).
  cbv beta iota delta [snd]. intros Heq.
  assert (tokens (put_token manager0 1%N
                    {| reputation_score := score';
                       last_updated := current_timestamp (world_at 200) |})
          !! 1%N = Some token0) as Hput
    by (rewrite Heq; apply manager0_token).
  unfold put_token, tokens in Hput. rewrite lookup_insert_eq in Hput.
  by injection Hput as _ Htime.
Qed.

(** C9, counterexample. The same manager, token id and activity give a
    score of 0.5 when the clock reads 100 and of 0.75 when it reads
    604900, one half life later: the result depends on the system clock. *)
Lemma update_reputation_depends_on_clock :
  score_after (creative_call 100) "creative_output_quality" = Some 0.5 ∧
  score_after (creative_call 604900) "creative_output_quality" = Some 0.75 ∧
  creative_call 100 ≠ creative_call 604900.
Proof.
  assert (score_after (creative_call 100) "creative_output_quality" = Some 0.5)
    as H1.
  { rewrite creative_call_score, exponential_decay_spec_zero.
    f_equal. unfold blend. rewrite clamp_id; lra. }
  assert (score_after (creative_call 604900) "creative_output_quality"
          = Some 0.75) as H2.
  { rewrite creative_call_score.
    change 604900%Z with (100 + 604800)%Z. unfold half_life.
    rewrite exponential_decay_spec_half_life by lia.
    f_equal. unfold blend. rewrite clamp_id; lra. }
  split; [done|]. split; [done|].
  intros Heq. rewrite Heq, H2 in H1. injection H1 as H1. lra.
Qed.

(** Witness of C1: the creative activity applied one half life after the
    token's last update. *)
Lemma update_reputation_blends_witness :
  tokens manager0 !! 1%N = Some token0 ∧
  activity_scores creative_activity !! "creative_output_quality" = Some 1 ∧
  ∃ score' token',
    (creative_call 604900).1 = Ok score' ∧
    tokens (creative_call 604900).2 !! 1%N = Some token' ∧
    reputation_score token' = score' ∧
    category_scores score' !! "creative_output_quality"
    = Some (clamp
              (default 0.5
                 (category_scores (reputation_score token0)
                  !! "creative_output_quality")
               * exponential_decay_spec 100 604900 half_life
               + 1 * (1 - exponential_decay_spec 100 604900 half_life)) 0 1).
Proof.
  split; [reflexivity|]. split; [reflexivity|].
  apply (update_reputation_blends half_life exponential_decay_spec
           weighted_score_spec constant_stability (world_at 604900)
           manager0 1%N creative_activity token0
           "creative_output_quality" 1); reflexivity.
Defined.

(** Witness of C7: the same call leaves "community_engagement" at 0.4 and
    the level at Verified. *)
Lemma update_reputation_frame_witness :
  tokens manager0 !! 1%N = Some token0 ∧
  (creative_call 604900).1 = Ok (creative_result 604900) ∧
  (∀ category,
     activity_scores creative_activity !! category = None →
     category_scores (creative_result 604900) !! category
     = category_scores (reputation_score token0) !! category) ∧
  verification_level (creative_result 604900)
  = verification_level (reputation_score token0).
Proof.
  split; [reflexivity|]. split; [reflexivity|].
  apply (update_reputation_frame half_life exponential_decay_spec
           weighted_score_spec constant_stability (world_at 604900)
           manager0 1%N creative_activity token0 (creative_result 604900));
    reflexivity.
Defined.


(** Witness of C3 as amended: the empty activity at clock 200, after the
    token's last update at 100. *)
Lemma update_reputation_fails_iff_unknown_token_witness :
  (∀ token, tokens manager0 !! 1%N = Some token →
            (last_updated token ≤ current_timestamp (world_at 200))%Z) ∧
  (is_ok empty_call.1 = false ↔ tokens manager0 !! 1%N = None).
Proof.
  assert (∀ token, tokens manager0 !! 1%N = Some token →
            (last_updated token ≤ current_timestamp (world_at 200))%Z) as Hle.
  { intros token Htok. rewrite manager0_token in Htok.
    injection Htok as <-. simpl. lia. }
  split; [exact Hle|].
  apply (update_reputation_fails_iff_unknown_token half_life
           exponential_decay_spec weighted_score_spec constant_stability
           (world_at 200) manager0 1%N empty_activity Hle).
Defined.

(** Witness of C9 as amended: two worlds whose clocks read 604900 and that
    walk the hash map in opposite orders. *)
Lemma update_reputation_clock_determined_witness :
  current_timestamp (world_at 604900) = current_timestamp (world_rev_at 604900) ∧
  update_reputation_spec_helpers (world_at 604900) manager0 1%N creative_activity
  = update_reputation_spec_helpers (world_rev_at 604900) manager0 1%N
      creative_activity.
Proof.
  split; [reflexivity|].
  apply (update_reputation_clock_determined half_life exponential_decay_spec
           weighted_score_spec constant_stability (world_at 604900)
           (world_rev_at 604900) manager0 1%N creative_activity).
  reflexivity.
Defined.

(** C8, counterexample. In binary32, with prior 0.5 and activity score 0.7
    (the nearest float), the decay factors 2^-23 and 2^-24 of 23 and 24
    half lives of elapsed time give the scores 0.7 and the float just below
    it: the later call ends farther from the activity's score. *)
Lemma binary32_blend_moves_away :
  let prior := Samples.f32_half in
  let new_score := Samples.f32_0_7 in
  let u1 := Binary32.blend prior new_score Samples.f32_2_m23 in
  let u2 := Binary32.blend prior new_score Samples.f32_2_m24 in
  exponential_decay_spec 0 (23 * 604800) half_life
  = Binary32.to_R Samples.f32_2_m23 ∧
  exponential_decay_spec 0 (24 * 604800) half_life
  = Binary32.to_R Samples.f32_2_m24 ∧
  Binary32.to_R prior ≠ Binary32.to_R new_score ∧
  u1 = Samples.f32_0_7 ∧
  u2 = Samples.f32_below_0_7 ∧
  Rabs (Binary32.to_R u1 - Binary32.to_R new_score)
  < Rabs (Binary32.to_R u2 - Binary32.to_R new_score).
Proof.
  intros prior new_score u1 u2.
  assert (u1 = Samples.f32_0_7) as Hu1 by (vm_compute; reflexivity).
  assert (u2 = Samples.f32_below_0_7) as Hu2 by (vm_compute; reflexivity).
  split; [|split; [|split; [|split; [done|split; [done|]]]]].
  - change (23 * 604800)%Z with (0 + Z.of_nat 23 * 604800)%Z.
    unfold half_life.
    rewrite (exponential_decay_spec_half_lives 0 604800 23) by lia.
    unfold Binary32.to_R, Samples.f32_2_m23. simpl. lra.
  - change (24 * 604800)%Z with (0 + Z.of_nat 24 * 604800)%Z.
    unfold half_life.
    rewrite (exponential_decay_spec_half_lives 0 604800 24) by lia.
    unfold Binary32.to_R, Samples.f32_2_m24. simpl. lra.
  - unfold Binary32.to_R, prior, new_score, Samples.f32_half, Samples.f32_0_7.
    simpl. lra.
  - rewrite Hu1, Hu2.
    unfold Binary32.to_R, new_score, Samples.f32_0_7, Samples.f32_below_0_7.
    simpl. unfold Rabs. repeat destruct Rcase_abs; lra.
Qed.

(** Witness of C8: the call at the token's last update and one half life
    later, every operation rounding to the nearest multiple of 2^-24. *)
Lemma blend_decay_monotone_up_to_rounding_witness :
  Rabs (Rounded.blend Rounded.grid_round 0.5 1 1
        - (0.5 * 1 + 1 * (1 - 1))) <= / 2 ^ 22 ∧
  Rabs (Rounded.blend Rounded.grid_round 0.5 1 (/ 2)
        - (0.5 * / 2 + 1 * (1 - / 2))) <= / 2 ^ 22 ∧
  Rabs (Rounded.blend Rounded.grid_round 0.5 1 (/ 2) - 1)
    <= Rabs (Rounded.blend Rounded.grid_round 0.5 1 1 - 1)
       + (/ 2 ^ 21 + 2 * 0) ∧
  Rabs (Rounded.blend Rounded.grid_round 0.5 1 1 - 0.5)
    <= Rabs (Rounded.blend Rounded.grid_round 0.5 1 (/ 2) - 0.5)
       + (/ 2 ^ 21 + 2 * 0).
Proof.
  apply (blend_decay_monotone_up_to_rounding Rounded.grid_round half_life
           100 100 604900 0.5 1 1 (/ 2) 0).
  - exact grid_round_within.
  - unfold half_life; lra.
  - lia.
  - lia.
  - lra.
  - lra.
  - lra.
  - lra.
  - rewrite exponential_decay_spec_zero, Rminus_diag, Rabs_R0. lra.
  - change 604900%Z with (100 + 604800)%Z. unfold half_life.
    rewrite exponential_decay_spec_half_life by lia.
    rewrite Rminus_diag, Rabs_R0. lra.
Defined.

End ConcreteCalls.

(** ** The TypeScript client *)

Section Client.
Import PolkadotClient.

Lemma max_min_clamped lo hi x :
  lo <= hi → clamped_to lo hi x (Rmax lo (Rmin hi x)).
Proof.
  intros Hle. unfold clamped_to, Rmax, Rmin.
  repeat destruct Rle_dec; repeat split; intros; lra.
Qed.

(** C10. Whatever real numbers are passed, [createEmotionData] returns a
    record whose valence, arousal and dominance are in [-1, 1] and whose
    confidence is in [0, 100]: a value below the range is replaced by the
    lower bound, one above by the upper bound, one inside is kept; a
    confidence left out is 85. *)
Theorem createEmotionData_clamps (date_now : Z) (v a d : R) (c : option R) :
  -1 <= valence (createEmotionData date_now v a d c) <= 1 ∧
  -1 <= arousal (createEmotionData date_now v a d c) <= 1 ∧
  -1 <= dominance (createEmotionData date_now v a d c) <= 1 ∧
  0 <= confidence (createEmotionData date_now v a d c) <= 100 ∧
  clamped_to (-1) 1 v (valence (createEmotionData date_now v a d c)) ∧
  clamped_to (-1) 1 a (arousal (createEmotionData date_now v a d c)) ∧
  clamped_to (-1) 1 d (dominance (createEmotionData date_now v a d c)) ∧
  clamped_to 0 100 (default 85 c)
             (confidence (createEmotionData date_now v a d c)).
Proof.
  pose proof (max_min_clamped (-1) 1 v ltac:(lra)) as Hv.
  pose proof (max_min_clamped (-1) 1 a ltac:(lra)) as Ha.
  pose proof (max_min_clamped (-1) 1 d ltac:(lra)) as Hd.
  pose proof (max_min_clamped 0 100 (default 85 c) ltac:(lra)) as Hc.
  simpl. repeat split; try apply Hv; try apply Ha; try apply Hd; apply Hc.
Qed.

End Client.

(** * Further properties *)

Section AnalyzerMore.
Import EmotionalBridge.

Lemma analyze_emotional_trend_ends history oldest newest :
  (2 ≤ length history)%nat →
  history !! 0%nat = Some oldest →
  history !! (5 `min` length history - 1)%nat = Some newest →
  analyze_emotional_trend history
  = Some (trend_of_diffs (valence newest - valence oldest)
                         (arousal newest - arousal oldest)).
Proof.
  intros Hlen Ho Hn.
  destruct (recent_ends history Hlen) as (o & n & Hh & Hl & Ho' & Hn').
  assert (o = oldest) as -> by congruence.
  assert (n = newest) as -> by congruence.
  unfold analyze_emotional_trend. case_decide; [lia|].
  by rewrite Hh, Hl.
Qed.

(** X1. For histories of at least two observations the trend depends only on
    the valence and arousal of the first entry and of the entry at index
    [min(5, len) - 1]: the entries in between, everything after the fifth,
    the dominance and the timestamps never reach the result. *)
Theorem analyze_emotional_trend_two_entries
    (h1 h2 : list EmotionalMetadata) o1 n1 o2 n2 :
  (2 ≤ length h1)%nat → (2 ≤ length h2)%nat →
  h1 !! 0%nat = Some o1 → h2 !! 0%nat = Some o2 →
  h1 !! (5 `min` length h1 - 1)%nat = Some n1 →
  h2 !! (5 `min` length h2 - 1)%nat = Some n2 →
  valence o1 = valence o2 → arousal o1 = arousal o2 →
  valence n1 = valence n2 → arousal n1 = arousal n2 →
  analyze_emotional_trend h1 = analyze_emotional_trend h2.
Proof.
  intros L1 L2 O1 O2 N1 N2 Hvo Hao Hvn Han.
  rewrite (analyze_emotional_trend_ends h1 o1 n1),
          (analyze_emotional_trend_ends h2 o2 n2) by done.
  by rewrite Hvo, Hao, Hvn, Han.
Qed.

(** X2. With [vd] and [ad] the differences between those two entries:
    [Volatile] exactly when one absolute difference exceeds 0.3,
    [Ascending] exactly when none does and one difference exceeds 0.1 (also
    when the other axis fell), [Descending] exactly when none exceeds 0.1,
    none is below -0.3 and one is below -0.1, and [Stable] exactly when both
    absolute differences are at most 0.1. *)
Theorem analyze_emotional_trend_classes
    (history : list EmotionalMetadata) oldest newest :
  (2 ≤ length history)%nat →
  history !! 0%nat = Some oldest →
  history !! (5 `min` length history - 1)%nat = Some newest →
  let vd := valence newest - valence oldest in
  let ad := arousal newest - arousal oldest in
  (analyze_emotional_trend history = Some Volatile
   ↔ 0.3 < Rabs vd ∨ 0.3 < Rabs ad) ∧
  (analyze_emotional_trend history = Some Ascending
   ↔ Rabs vd <= 0.3 ∧ Rabs ad <= 0.3 ∧ (0.1 < vd ∨ 0.1 < ad)) ∧
  (analyze_emotional_trend history = Some Descending
   ↔ -0.3 <= vd <= 0.1 ∧ -0.3 <= ad <= 0.1 ∧ (vd < -0.1 ∨ ad < -0.1)) ∧
  (analyze_emotional_trend history = Some Stable
   ↔ Rabs vd <= 0.1 ∧ Rabs ad <= 0.1).
Proof.
  intros Hlen Ho Hn vd ad.
  rewrite (analyze_emotional_trend_ends history oldest newest) by done.
  fold vd ad. unfold trend_of_diffs; cbv zeta.
  generalize vd ad. clear. intros vd ad.
  repeat case_decide;
    repeat split; try (intros [=]); try done; intros;
    unfold Rabs in *; repeat destruct Rcase_abs; try lra;
    try (exfalso; lra); try tauto.
Qed.
End AnalyzerMore.

Section PathMore.
Import EmotionalBridge.

Lemma distance_same p q :
  pt_valence p = pt_valence q → pt_arousal p = pt_arousal q →
  distance p q = 0.
Proof.
  intros Hv Ha. unfold distance. rewrite Hv, Ha, !Rminus_diag.
  replace (0 ^ 2 + 0 ^ 2) with 0 by ring. apply sqrt_0.
Qed.

Lemma path_length_stationary (t : list EmotionalPoint) :
  (∀ p q, p ∈ t → q ∈ t →
     pt_valence p = pt_valence q ∧ pt_arousal p = pt_arousal q) →
  path_length t = 0.
Proof.
  induction t as [|p [|q t] IH]; [done..|].
  intros Hall.
  change (path_length (p :: q :: t))
    with (distance p q + path_length (q :: t)).
  destruct (Hall p q) as [Hv Ha]; [left | right; left |].
  rewrite (distance_same p q Hv Ha), IH; [lra|].
  intros a b Ha' Hb'. apply Hall; by right.
Qed.

Lemma calculate_complexity_closed_form (self : EmotionalMetadata) :
  calculate_complexity self =
  Some (set_emotional_complexity self
          (if decide (length (emotional_trajectory self) < 2)%nat then 0
           else clamp (path_length (emotional_trajectory self)
                       / INR (length (emotional_trajectory self))) 0 1)).
Proof.
  unfold calculate_complexity. case_decide; [done|].
  by rewrite complexity_loop_full by lia.
Qed.

(** X7. [calculate_complexity] never panics and leaves
    [emotional_complexity] in [0, 1]; when all points of the trajectory
    share valence and arousal it leaves it at 0. *)
Theorem calculate_complexity_stationary (self : EmotionalMetadata) :
  ∃ self',
    calculate_complexity self = Some self' ∧
    0 <= emotional_complexity self' <= 1 ∧
    ((∀ p q, p ∈ emotional_trajectory self → q ∈ emotional_trajectory self →
        pt_valence p = pt_valence q ∧ pt_arousal p = pt_arousal q) →
     emotional_complexity self' = 0).
Proof.
  rewrite calculate_complexity_closed_form. eexists. split; [done|].
  simpl. set (t := emotional_trajectory self).
  case_decide as Hlen; [split; [lra | done]|].
  split; [apply clamp_bounds; lra|].
  intros Hall. rewrite (path_length_stationary t Hall).
  unfold Rdiv. rewrite Rmult_0_l. apply clamp_id. lra.
Qed.
End PathMore.

Section ReputationMore.
Import Soulbound.

(** X8. The privilege level lies in 1..4, identifies the verification level,
    and orders the levels as the reputation multiplier does. *)
Theorem privilege_orders_multiplier (l1 l2 : VerificationLevel) :
  (1 ≤ get_privilege_level l1 ≤ 4)%Z ∧
  ((get_privilege_level l1 < get_privilege_level l2)%Z
   ↔ get_reputation_multiplier l1 < get_reputation_multiplier l2) ∧
  (get_privilege_level l1 = get_privilege_level l2 ↔ l1 = l2).
Proof.
  destruct l1, l2; simpl; (split; [lia|]); split; split;
    intros; try done; try lia; lra.
Qed.

Lemma calculate_weighted_score_eq score :
  calculate_weighted_score score
  = clamp (base_score_of score
           * get_reputation_multiplier (verification_level score)) 0 1.
Proof.
  unfold calculate_weighted_score, base_score_of.
  by rewrite get_reputation_multiplier_match.
Qed.

(** X9. When the five weighted fields lie in [0, 1], so does their weighted
    sum; [calculate_weighted_score] is then at most the multiplier of the
    level (0.8 for Basic) and at most 1, and for a multiplier up to 1 it is
    the plain product, the clamp being idle. *)
Theorem calculate_weighted_score_capped (score : ReputationScore) :
  fields_in_unit score →
  0 <= base_score_of score <= 1 ∧
  0 <= calculate_weighted_score score
    <= Rmin 1 (get_reputation_multiplier (verification_level score)) ∧
  (get_reputation_multiplier (verification_level score) <= 1 →
   calculate_weighted_score score
   = base_score_of score
     * get_reputation_multiplier (verification_level score)).
Proof.
  intros (H1 & H2 & H3 & H4 & H5).
  assert (0 <= base_score_of score <= 1) as Hb
    by (unfold base_score_of; lra).
  split; [done|]. rewrite calculate_weighted_score_eq.
  destruct (verification_level score); simpl;
    (split; [unfold Rmin; destruct Rle_dec; case_clamp; nra|]);
    intros; try lra; apply clamp_id; nra.
Qed.

(** X10. For the same non-negative weighted sum a level of higher privilege
    never has a lower [calculate_weighted_score]. *)
Theorem calculate_weighted_score_level_monotone (s1 s2 : ReputationScore) :
  base_score_of s1 = base_score_of s2 →
  0 <= base_score_of s1 →
  (get_privilege_level (verification_level s1)
   ≤ get_privilege_level (verification_level s2))%Z →
  calculate_weighted_score s1 <= calculate_weighted_score s2.
Proof.
  intros Hb Hnn Hlvl. rewrite !calculate_weighted_score_eq, <- Hb.
  apply clamp_mono; [lra|].
  apply Rmult_le_compat_l; [done|].
  destruct (verification_level s1), (verification_level s2);
    simpl in *; try lia; lra.
Qed.

Lemma blended_scores_dom d (old new : gmap string R) :
  dom (blended_scores d old new) = dom old ∪ dom new.
Proof.
  apply set_eq. intros k.
  rewrite elem_of_union, !elem_of_dom, blended_scores_lookup.
  unfold is_Some.
  destruct (new !! k) as [s|], (old !! k) as [c|]; simpl;
    (split;
     [ intros [x Hx]; first [ discriminate | left; by eexists | right; by eexists ]
     | intros [[x Hx]|[x Hx]]; first [ discriminate | by eexists ] ]).
Qed.

Lemma blend_unit c s d : 0 <= blend c s d <= 1.
Proof. apply clamp_bounds. lra. Qed.

Section More.
Variable DECAY_HALF_LIFE : R.
Variable calculate_exponential_decay : Z → Z → R → R.
Variable calculate_weighted_score_map : gmap string R → R.
Variable calculate_temporal_stability : gmap string R → Z → R.

(** X11. After a successful [update_reputation] the overall score and every
    category score written by the call lie in [0, 1]; if all stored category
    scores were in [0, 1] before, all are afterwards. *)
Theorem update_reputation_unit_interval w self token_id new_activity
    token score' :
  tokens self !! token_id = Some token →
  (update_reputation DECAY_HALF_LIFE calculate_exponential_decay
     calculate_weighted_score_map calculate_temporal_stability
     w self token_id new_activity).1 = Ok score' →
  0 <= overall_score score' <= 1 ∧
  (∀ category v,
     is_Some (activity_scores new_activity !! category) →
     category_scores score' !! category = Some v → 0 <= v <= 1) ∧
  (map_Forall (λ _ v, 0 <= v <= 1)
     (category_scores (reputation_score token)) →
   map_Forall (λ _ v, 0 <= v <= 1) (category_scores score')).
Proof.
  intros Htok Hok.
  destruct (update_reputation_found DECAY_HALF_LIFE
              calculate_exponential_decay calculate_weighted_score_map
              calculate_temporal_stability w self token_id new_activity
              token Htok) as (s & Heq & Hscores & _ & Hoverall).
  rewrite Heq in Hok. simpl in Hok. injection Hok as ->.
  split; [rewrite Hoverall; apply clamp_bounds; lra|].
  assert (∀ category v,
     is_Some (activity_scores new_activity !! category) →
     category_scores score' !! category = Some v → 0 <= v <= 1) as Htouched.
  { intros category v [x Hx]. rewrite Hscores, blended_scores_lookup, Hx.
    intros [= <-]. apply blend_unit. }
  split; [done|].
  intros Hold category v Hv.
  destruct (activity_scores new_activity !! category) as [x|] eqn:Hx.
  - by apply (Htouched category v).
  - rewrite Hscores, blended_scores_lookup, Hx in Hv. by apply (Hold category).
Qed.

(** X12. The categories after a successful [update_reputation] are those
    stored before together with those of the activity: no key is dropped. *)
Theorem update_reputation_keys w self token_id new_activity token score' :
  tokens self !! token_id = Some token →
  (update_reputation DECAY_HALF_LIFE calculate_exponential_decay
     calculate_weighted_score_map calculate_temporal_stability
     w self token_id new_activity).1 = Ok score' →
  dom (category_scores score')
  = dom (category_scores (reputation_score token))
    ∪ dom (activity_scores new_activity).
Proof.
  intros Htok Hok.
  destruct (update_reputation_found DECAY_HALF_LIFE
              calculate_exponential_decay calculate_weighted_score_map
              calculate_temporal_stability w self token_id new_activity
              token Htok) as (s & Heq & Hscores & _).
  rewrite Heq in Hok. simpl in Hok. injection Hok as ->.
  rewrite Hscores. apply blended_scores_dom.
Qed.

(** X13. [update_reputation] leaves every token other than the addressed one
    as it was, whether it succeeds or fails. *)
Theorem update_reputation_other_tokens w self token_id new_activity other :
  other ≠ token_id →
  tokens (update_reputation DECAY_HALF_LIFE calculate_exponential_decay
            calculate_weighted_score_map calculate_temporal_stability
            w self token_id new_activity).2 !! other
  = tokens self !! other.
Proof.
  intros Hne.
  destruct (tokens self !! token_id) as [token|] eqn:Htok.
  - destruct (update_reputation_found DECAY_HALF_LIFE
                calculate_exponential_decay calculate_weighted_score_map
                calculate_temporal_stability w self token_id new_activity
                token Htok) as (s & -> & _).
    simpl. by rewrite lookup_insert_ne.
  - by rewrite update_reputation_missing.
Qed.

(** X14. A successful [update_reputation] stores the record it returns and
    stamps it with the current time; it leaves the struct fields
    emotional_consistency, creative_output_quality, community_engagement and
    cross_chain_activity as they were, and sets temporal_stability to the
    value of [calculate_temporal_stability] on the new map and the elapsed
    time. *)
Theorem update_reputation_struct_fields w self token_id new_activity
    token score' :
  tokens self !! token_id = Some token →
  (update_reputation DECAY_HALF_LIFE calculate_exponential_decay
     calculate_weighted_score_map calculate_temporal_stability
     w self token_id new_activity).1 = Ok score' →
  emotional_consistency score'
  = emotional_consistency (reputation_score token) ∧
  creative_output_quality score'
  = creative_output_quality (reputation_score token) ∧
  community_engagement score'
  = community_engagement (reputation_score token) ∧
  cross_chain_activity score'
  = cross_chain_activity (reputation_score token) ∧
  temporal_stability score'
  = calculate_temporal_stability (category_scores score')
      (current_timestamp w - last_updated token) ∧
  tokens (update_reputation DECAY_HALF_LIFE calculate_exponential_decay
            calculate_weighted_score_map calculate_temporal_stability
            w self token_id new_activity).2 !! token_id
  = Some {| reputation_score := score';
            last_updated := current_timestamp w |}.
Proof.
  intros Htok Hok.
  unfold update_reputation, get_token_mut in *. rewrite Htok in *.
  simpl in Hok. injection Hok as <-. simpl.
  repeat split; try done. apply lookup_insert_eq.
Qed.

(** X15. When the decay factor of the call lies in [0, 1] and both the prior
    (stored score, or 0.5) and the activity's score lie in [0, 1], the new
    score is the mix [prior * decay + new * (1 - decay)], the clamp leaving
    it as it is; with decay 1 it is the prior (a first-seen category gets
    0.5 whatever the activity says) and with decay 0 the activity's
    score. *)
Theorem update_reputation_mix_extremes w self token_id new_activity token
    category new_score :
  tokens self !! token_id = Some token →
  activity_scores new_activity !! category = Some new_score →
  let prior :=
    default 0.5 (category_scores (reputation_score token) !! category) in
  let decay :=
    calculate_exponential_decay (last_updated token) (current_timestamp w)
                                DECAY_HALF_LIFE in
  0 <= decay <= 1 → 0 <= prior <= 1 → 0 <= new_score <= 1 →
  ∃ v,
    score_after
      (update_reputation DECAY_HALF_LIFE calculate_exponential_decay
         calculate_weighted_score_map calculate_temporal_stability
         w self token_id new_activity) category = Some v ∧
    v = prior * decay + new_score * (1 - decay) ∧
    (decay = 1 → v = prior) ∧
    (decay = 0 → v = new_score).
Proof.
  intros Htok Hact prior decay Hd Hp Hs.
  rewrite (score_after_found _ _ _ _ _ _ _ _ token) by done.
  rewrite blended_scores_lookup, Hact. fold prior decay.
  pose proof (blend_unclamped prior new_score decay Hd Hp Hs) as Heq.
  eexists. split; [done|]. split; [done|].
  rewrite Heq. split; intros ->; lra.
Qed.

End More.
End ReputationMore.

Section CrossChainProofs.
Import CrossChain.

Lemma as_bytes_app (s1 s2 : string) :
  as_bytes (s1 +:+ s2) = as_bytes s1 ++ as_bytes s2.
Proof.
  unfold as_bytes. induction s1 as [|c s1 IH]; [done|].
  simpl. f_equal. exact IH.
Qed.

Lemma le_bytes_length n x : length (le_bytes n x) = n.
Proof. revert x. induction n as [|n IH]; intros x; simpl; [done|]. by rewrite IH. Qed.

Lemma le_bytes_range n x : Forall (λ b, 0 ≤ b < 256)%Z (le_bytes n x).
Proof.
  revert x. induction n as [|n IH]; intros x; simpl; constructor; [|done].
  change 255%Z with (Z.ones 8). rewrite Z.land_ones by lia.
  apply Z.mod_pos_bound. lia.
Qed.

Lemma of_le_bytes_le_bytes n x :
  (0 ≤ x < 2 ^ (8 * Z.of_nat n))%Z → of_le_bytes (le_bytes n x) = x.
Proof.
  revert x. induction n as [|n IH]; intros x Hx.
  - simpl in *. lia.
  - cbn [le_bytes of_le_bytes].
    change 255%Z with (Z.ones 8). rewrite Z.land_ones by lia.
    rewrite Z.shiftr_div_pow2 by lia.
    rewrite IH.
    + change (2 ^ 8)%Z with 256%Z. pose proof (Z.div_mod x 256). lia.
    + replace (8 * Z.of_nat (S n))%Z with (8 + 8 * Z.of_nat n)%Z in Hx by lia.
      rewrite Z.pow_add_r in Hx by lia.
      change (2 ^ 8)%Z with 256%Z in *.
      split; [apply Z.div_pos; lia|].
      apply Z.div_lt_upper_bound; lia.
Qed.

Theorem to_le_bytes_round_trip (x : Z) :
  (0 ≤ x < 2 ^ 64)%Z →
  length (to_le_bytes x) = 8%nat ∧
  Forall (λ b, 0 ≤ b < 256)%Z (to_le_bytes x) ∧
  of_le_bytes (to_le_bytes x) = x.
Proof.
  intros Hx. unfold to_le_bytes.
  split; [apply le_bytes_length|]. split; [apply le_bytes_range|].
  by apply of_le_bytes_le_bytes.
Qed.

(** X16. [calculate_identity_hash] feeds the hasher the two chain names one
    after the other without a separator, then timestamp and nonce: messages
    whose chain names concatenate to the same string and that agree in
    timestamp and nonce have the same hash, whatever their identity,
    reputation and emotional-state hashes and signature. *)
Theorem calculate_identity_hash_concatenation (blake2b256 : bytes → N)
    (m1 m2 : CrossChainMessage) :
  source_chain m1 +:+ target_chain m1 = source_chain m2 +:+ target_chain m2 →
  timestamp m1 = timestamp m2 →
  nonce m1 = nonce m2 →
  calculate_identity_hash blake2b256 m1 = calculate_identity_hash blake2b256 m2.
Proof.
  intros Hs Ht Hn.
  unfold calculate_identity_hash, hasher_finalize, hasher_update, hasher_new.
  rewrite !app_nil_l, <- !as_bytes_app, Hs, Ht, Hn. done.
Qed.
End CrossChainProofs.

Section ClientScaling.
Import PolkadotClient.

Lemma Math_round_bounds (x : R) :
  IZR (Math_round x) - 0.5 <= x < IZR (Math_round x) + 0.5.
Proof.
  unfold Math_round. destruct (base_Int_part (x + 0.5)) as [H1 H2]. lra.
Qed.

Lemma Math_round_IZR (z : Z) : Math_round (IZR z) = z.
Proof.
  pose proof (Math_round_bounds (IZR z)) as [H1 H2].
  assert (IZR (Math_round (IZR z) - 1) < IZR z) as Ha
    by (rewrite minus_IZR; lra).
  assert (IZR z < IZR (Math_round (IZR z) + 1)) as Hb
    by (rewrite plus_IZR; lra).
  apply lt_IZR in Ha, Hb. lia.
Qed.

Lemma Math_round_range (x : R) (lo hi : Z) :
  IZR lo <= x <= IZR hi → (lo ≤ Math_round x ≤ hi)%Z.
Proof.
  intros [Hlo Hhi]. pose proof (Math_round_bounds x) as [H1 H2].
  assert (IZR (lo - 1) < IZR (Math_round x)) as Ha
    by (rewrite minus_IZR; lra).
  assert (IZR (Math_round x) < IZR (hi + 1)) as Hb
    by (rewrite plus_IZR; lra).
  apply lt_IZR in Ha, Hb. lia.
Qed.

(** X17. The emotion data that [createEmotionData] returns scales to integers
    between -127 and 127 on every axis: 127 for an input of 1 or more, -127
    for -1 or less, 0 for 0. *)
Theorem emotionDataScaled_fits_i8 (date_now : Z) (v a d : R) (c : option R) :
  let scaled := emotionDataScaled (createEmotionData date_now v a d c) in
  (-127 ≤ scaled_valence scaled ≤ 127)%Z ∧
  (-127 ≤ scaled_arousal scaled ≤ 127)%Z ∧
  (-127 ≤ scaled_dominance scaled ≤ 127)%Z ∧
  (1 <= v → scaled_valence scaled = 127%Z) ∧
  (v <= -1 → scaled_valence scaled = (-127)%Z) ∧
  (v = 0 → scaled_valence scaled = 0%Z).
Proof.
  pose proof (max_min_clamped (-1) 1 v ltac:(lra)) as (Hv & Hv1 & Hv2 & Hv3).
  pose proof (max_min_clamped (-1) 1 a ltac:(lra)) as (Ha & _).
  pose proof (max_min_clamped (-1) 1 d ltac:(lra)) as (Hd & _).
  simpl.
  split; [apply Math_round_range; lra|].
  split; [apply Math_round_range; lra|].
  split; [apply Math_round_range; lra|].
  split; [|split].
  - intros H1. destruct (Rle_lt_or_eq_dec 1 v H1) as [Hlt| <-].
    + rewrite Hv2 by lra. replace (1 * 127) with (IZR 127) by lra.
      apply Math_round_IZR.
    + rewrite Hv3 by lra. replace (1 * 127) with (IZR 127) by lra.
      apply Math_round_IZR.
  - intros H1. destruct (Rle_lt_or_eq_dec v (-1) H1) as [Hlt| ->].
    + rewrite Hv1 by lra. replace (-1 * 127) with (IZR (-127)) by lra.
      apply Math_round_IZR.
    + rewrite Hv3 by lra. replace (-1 * 127) with (IZR (-127)) by lra.
      apply Math_round_IZR.
  - intros ->. rewrite Hv3 by lra. replace (0 * 127) with (IZR 0) by lra.
    apply Math_round_IZR.
Qed.

(** X18. For axes in [-1, 1], scaling by 127 with [Math.round] and reading
    the stored integer back with [/ 127], as [getIdentity] does, returns
    each axis off by less than one step 1/127 of the stored grid. *)
Theorem emotion_data_round_trip (e : EmotionData) (stored : ContractEmotionData) :
  -1 <= valence e <= 1 → -1 <= arousal e <= 1 → -1 <= dominance e <= 1 →
  contract_valence stored = scaled_valence (emotionDataScaled e) →
  contract_arousal stored = scaled_arousal (emotionDataScaled e) →
  contract_dominance stored = scaled_dominance (emotionDataScaled e) →
  Rabs (valence (emotion_data_of_contract stored) - valence e) < 1 / 127 ∧
  Rabs (arousal (emotion_data_of_contract stored) - arousal e) < 1 / 127 ∧
  Rabs (dominance (emotion_data_of_contract stored) - dominance e) < 1 / 127.
Proof.
  intros _ _ _ Hv Ha Hd. simpl. rewrite Hv, Ha, Hd. simpl.
  pose proof (Math_round_bounds (valence e * 127)).
  pose proof (Math_round_bounds (arousal e * 127)).
  pose proof (Math_round_bounds (dominance e * 127)).
  repeat split; apply Rabs_def1; lra.
Qed.
End ClientScaling.

Section AIBridgeProofs.
Import AIBridge.

Lemma unit_clamp_ge (x t : R) : 0 < t <= 1 → (Rmax 0 (Rmin 1 x) < t ↔ x < t).
Proof. intros Ht. unfold Rmax, Rmin. repeat destruct Rle_dec; lra. Qed.

(** X19. [createBiometricData] keeps the first six entries of the vector and
    never pads: the stored vector has [min(6, len)] entries, six exactly when
    the input has at least six; quality score and confidence are brought
    into [0, 1] and kept when already there. *)
Theorem createBiometricData_shape (sha256_json : list R → string)
    (date_now : Z) (v : list R) (q c : option R) :
  let b := createBiometricData sha256_json date_now v q c in
  length (emotionVector b) = (6 `min` length v)%nat ∧
  emotionVector b `prefix_of` v ∧
  (length (emotionVector b) = 6%nat ↔ (6 ≤ length v)%nat) ∧
  0 <= qualityScore b <= 1 ∧
  0 <= confidence b <= 1 ∧
  (0 <= default 0.85 q <= 1 → qualityScore b = default 0.85 q) ∧
  (0 <= default 0.9 c <= 1 → confidence b = default 0.9 c).
Proof.
  simpl. rewrite length_take.
  split; [done|]. split; [apply prefix_take|]. split; [lia|].
  unfold Rmax, Rmin. repeat split; repeat destruct Rle_dec; intros; lra.
Qed.

Lemma validateCrossChainTransfer_true (transfer : CrossChainTransfer) :
  validateCrossChainTransfer transfer = true ↔
  (10 ≤ String.length (transferId transfer))%nat ∧
  0.5 <= qualityScore (biometricData transfer) ∧
  0.3 <= analysis_confidence (emotionAnalysis transfer) ∧
  length (emotionVector (biometricData transfer)) = 6%nat.
Proof.
  unfold validateCrossChainTransfer.
  destruct (bool_decide_reflect (transferId transfer = "")) as [He|He]; simpl.
  - rewrite He. simpl. split; [done | intros [? _]; lia].
  - destruct (Nat.ltb_spec (String.length (transferId transfer)) 10).
    + split; [done | intros [? _]; lia].
    + repeat case_decide;
        (split;
         [ intros Ht; try done; repeat split; first [lra | lia]
         | intros (?&?&?&?); try done; first [lra | lia] ]).
Qed.

(** X20. A transfer whose biometric data comes from [createBiometricData] is
    accepted by [validateCrossChainTransfer] exactly when its id has at
    least 10 characters, the input vector had at least six entries, the
    requested quality score (default 0.85) is at least 0.5 and the analysis
    confidence is at least 0.3; a vector of fewer than six entries is always
    rejected. *)
Theorem validateCrossChainTransfer_created
    (sha256_json : list R → string) (date_now : Z) (v : list R)
    (q c : option R) (transfer : CrossChainTransfer) :
  biometricData transfer = createBiometricData sha256_json date_now v q c →
  (validateCrossChainTransfer transfer = true ↔
   (10 ≤ String.length (transferId transfer))%nat ∧
   (6 ≤ length v)%nat ∧
   0.5 <= default 0.85 q ∧
   0.3 <= analysis_confidence (emotionAnalysis transfer)) ∧
  ((length v < 6)%nat → validateCrossChainTransfer transfer = false).
Proof.
  intros Hb.
  assert (validateCrossChainTransfer transfer = true ↔
   (10 ≤ String.length (transferId transfer))%nat ∧
   (6 ≤ length v)%nat ∧
   0.5 <= default 0.85 q ∧
   0.3 <= analysis_confidence (emotionAnalysis transfer)) as Hiff.
  { rewrite validateCrossChainTransfer_true, Hb. simpl.
    rewrite length_take.
    pose proof (unit_clamp_ge (default 0.85 q) 0.5 ltac:(lra)).
    split; intros (?&?&?&?); repeat split; try done; try lia; lra. }
  split; [done|]. intros Hlt.
  destruct (validateCrossChainTransfer transfer); [|done].
  destruct (proj1 Hiff eq_refl) as (_ & ? & _). lia.
Qed.

Ltac in_concrete_list :=
  repeat first [ by apply list_elem_of_here | apply list_elem_of_further ].

Ltac not_in_concrete_list H :=
  repeat (apply elem_of_cons in H as [H|H]; [try discriminate H|]);
  try (by apply elem_of_nil in H).

Ltac close_side := first [ done | lra | lia | in_concrete_list ].

Lemma analyzeCrossChainCompatibility_queried (b : BiometricData) :
  transformations (analyzeCrossChainCompatibility true b)
  = (if decide (qualityScore b < 0.8) then ["quality_enhancement"] else [])
    ++ (if decide (length (emotionVector b) ≠ 6%nat)
        then ["vector_normalization"] else [])
    ++ (if decide (confidence b < 0.7) then ["confidence_boosting"] else [])
  ∧ compatible (analyzeCrossChainCompatibility true b)
    = (if decide (confidence b < 0.7) then false else true).
Proof.
  unfold analyzeCrossChainCompatibility. by repeat case_decide.
Qed.

(** X21. [analyzeCrossChainCompatibility] reports incompatibility exactly when
    the database query returned and the confidence is below 0.7; each
    transformation is listed exactly under its own condition, in the fixed
    order quality_enhancement, vector_normalization, confidence_boosting;
    when the query throws the answer is compatible, no transformation,
    format "standard". *)
Theorem analyzeCrossChainCompatibility_tags (query_ok : bool)
    (b : BiometricData) :
  let r := analyzeCrossChainCompatibility query_ok b in
  (compatible r = false ↔ query_ok = true ∧ confidence b < 0.7) ∧
  ("quality_enhancement" ∈ transformations r
   ↔ query_ok = true ∧ qualityScore b < 0.8) ∧
  ("vector_normalization" ∈ transformations r
   ↔ query_ok = true ∧ length (emotionVector b) ≠ 6%nat) ∧
  ("confidence_boosting" ∈ transformations r ↔ compatible r = false) ∧
  transformations r
    `sublist_of` ["quality_enhancement"; "vector_normalization";
                  "confidence_boosting"] ∧
  (format r = if query_ok then "cross_chain_standard" else "standard").
Proof.
  destruct query_ok; cbv zeta.
  - destruct (analyzeCrossChainCompatibility_queried b) as [-> ->].
    split; [|split; [|split; [|split; [|split]]]].
    + case_decide; split; try done; intros [_ ?]; close_side.
    + repeat case_decide; simpl;
        (split; [intros Hin; not_in_concrete_list Hin; split; close_side
                | intros [_ ?]; close_side ]).
    + repeat case_decide; simpl;
        (split; [intros Hin; not_in_concrete_list Hin; split; close_side
                | intros [_ ?]; close_side ]).
    + repeat case_decide; simpl;
        (split; [intros Hin; not_in_concrete_list Hin; close_side
                | intros ?; close_side ]).
    + repeat case_decide; simpl;
        repeat first [ apply sublist_nil | apply sublist_skip
                     | apply sublist_cons ].
    + unfold analyzeCrossChainCompatibility. by repeat case_decide.
  - simpl. split; [|split; [|split; [|split; [|split]]]];
      try (split; [intros Hin; first [done | by apply elem_of_nil in Hin]
                  | intros [? _]; done ]).
    + split; [intros Hin; by apply elem_of_nil in Hin | done].
    + apply sublist_nil_l.
    + done.
Qed.

(** X22. A transfer that [validateCrossChainTransfer] accepts never gets
    vector_normalization from [analyzeCrossChainCompatibility], but it is
    still reported incompatible when the query returned and the biometric
    confidence, which the validation does not read, is below 0.7. *)
Theorem accepted_transfer_needs_no_normalization (query_ok : bool)
    (transfer : CrossChainTransfer) :
  validateCrossChainTransfer transfer = true →
  ("vector_normalization"
    ∉ transformations
        (analyzeCrossChainCompatibility query_ok (biometricData transfer))) ∧
  (compatible
     (analyzeCrossChainCompatibility query_ok (biometricData transfer)) = false
   ↔ query_ok = true ∧ confidence (biometricData transfer) < 0.7).
Proof.
  intros Hv. apply validateCrossChainTransfer_true in Hv as (_ & _ & _ & Hlen).
  destruct query_ok.
  - destruct (analyzeCrossChainCompatibility_queried (biometricData transfer))
      as [-> ->].
    split.
    + intros Hin. repeat case_decide; simpl in Hin; try done;
        not_in_concrete_list Hin.
    + case_decide; split; try done; intros [_ ?]; close_side.
  - simpl. split; [intros Hin; by apply elem_of_nil in Hin|].
    split; [done | intros [? _]; done].
Qed.

Lemma filter_status_lengths (l : list CrossChainTransfer) :
  (length (filter (λ t, status t = completed) l)
   + length (filter (λ t, status t = failed) l) ≤ length l)%nat.
Proof.
  induction l as [|t l IH]; [done|].
  rewrite !filter_cons. repeat case_decide; simpl; try lia. congruence.
Qed.

Lemma filter_all_length {A} (P : A → Prop) `{!∀ x, Decision (P x)}
    (l : list A) :
  length (filter P l) = length l ↔ Forall P l.
Proof.
  induction l as [|x l IH]; [by split|].
  rewrite filter_cons. pose proof (length_filter P l) as Hle.
  case_decide; simpl.
  - rewrite Forall_cons. split; [intros [=]; split; [done | by apply IH]|].
    intros [_ Hall]. f_equal. by apply IH.
  - split; [lia|]. intros Hall. by apply Forall_cons in Hall as [? _].
Qed.

(** X23. In [getBridgeStatistics] completed and failed transfers together
    never exceed the total; the success rate lies in [0, 100], is 100
    exactly when there are transfers and all are completed, and is 0 exactly
    when none is completed; without transfers the average confidence
    is 0. *)
Theorem getBridgeStatistics_rates (self : PolkadotAIBridge) :
  let stats := getBridgeStatistics self in
  let transfers := (bridgeState self).*2 in
  totalTransfers stats = length (bridgeState self) ∧
  (completedTransfers stats + failedTransfers stats ≤ totalTransfers stats)%nat ∧
  0 <= successRate stats <= 100 ∧
  (successRate stats = 100
   ↔ bridgeState self ≠ [] ∧ Forall (λ t, status t = completed) transfers) ∧
  (successRate stats = 0 ↔ completedTransfers stats = 0%nat) ∧
  (bridgeState self = [] → averageAIConfidence stats = 0).
Proof.
  intros stats transfers. subst stats. unfold getBridgeStatistics.
  fold transfers. cbn [totalTransfers completedTransfers failedTransfers
                       successRate averageAIConfidence].
  assert (length transfers = length (bridgeState self)) as Hlen
    by apply length_fmap.
  pose proof (filter_status_lengths transfers) as Hsum.
  pose proof (length_filter (λ t, status t = completed) transfers) as Hc.
  set (c := length (filter (λ t, status t = completed) transfers)) in *.
  split; [done|]. split; [done|].
  destruct (bridgeState self) as [|e rest] eqn:Hstate.
  { assert (transfers = []) as Ht by done.
    subst c. rewrite Ht. simpl.
    split; [lra|]. split; [split; [lra | by intros [? _]]|].
    split; [done | done]. }
  assert (0 < length transfers)%nat as Hpos by (rewrite Hlen; simpl; lia).
  case_decide; [|lia].
  assert (0 < INR (length transfers)) as Hn by (by apply lt_0_INR).
  assert (0 <= INR c <= INR (length transfers)) as Hcn
    by (split; [apply pos_INR | by apply le_INR]).
  assert (INR c / INR (length transfers) * 100 <= 100) as Hle.
  { apply (Rmult_le_reg_r (INR (length transfers))); [done|].
    replace (INR c / INR (length transfers) * 100 * INR (length transfers))
      with (INR c * 100) by (field; lra). lra. }
  assert (0 <= INR c / INR (length transfers) * 100) as Hge.
  { apply Rmult_le_pos; [|lra]. apply Rmult_le_pos; [lra|].
    left. by apply Rinv_0_lt_compat. }
  split; [done|]. split; [|split].
  - rewrite <- (filter_all_length (λ t, status t = completed)). fold c.
    split.
    + intros Heq. split; [done|]. apply INR_eq.
      apply (Rmult_eq_reg_r (/ INR (length transfers)));
        [|apply Rinv_neq_0_compat; lra].
      rewrite Rinv_r by lra. unfold Rdiv in Heq. lra.
    + intros [_ Heq]. rewrite Heq. field. lra.
  - split.
    + intros Heq. apply INR_eq. simpl.
      apply (Rmult_eq_reg_r (/ INR (length transfers)));
        [|apply Rinv_neq_0_compat; lra].
      rewrite Rmult_0_l. unfold Rdiv in Heq. lra.
    + intros ->. simpl. unfold Rdiv. lra.
  - done.
Qed.

End AIBridgeProofs.

Section InkProofs.
Import InkBridge.
#[local] Open Scope Z_scope.

Lemma wrapping_succ_range x : 0 ≤ wrapping_succ x < 2 ^ 64.
Proof. unfold wrapping_succ. apply Z.mod_pos_bound. lia. Qed.

Lemma wrapping_succ_small x : 0 ≤ x < 2 ^ 64 - 1 → wrapping_succ x = x + 1.
Proof. intros Hx. unfold wrapping_succ. apply Z.mod_small. lia. Qed.

(** X24. [store_emotional_data] returns the old token counter as id;
    [get_emotional_data] at that id then returns the stored values with the
    block timestamp, every other id reads as before, the counter is the old
    one plus 1 modulo 2^64, bridge data, bridge count and owner are unchanged
    and one [EmotionalDataStored] event is emitted. *)
Theorem store_emotional_data_round_trip (env : Env) (self : EmotionalBridge)
    (v a d : Z) (category : string) :
  let r := store_emotional_data env self v a d category in
  let token_id := r.1.1 in
  let self' := r.1.2 in
  token_id = get_token_count self ∧
  get_emotional_data self' token_id
  = Some {| valence := v; arousal := a; dominance := d;
            timestamp := block_timestamp env;
            emotional_category := category |} ∧
  (∀ other, other ≠ token_id →
     get_emotional_data self' other = get_emotional_data self other) ∧
  get_token_count self' = (get_token_count self + 1) mod 2 ^ 64 ∧
  (0 ≤ get_token_count self < 2 ^ 64 - 1 →
   get_token_count self' = get_token_count self + 1) ∧
  bridge_info self' = bridge_info self ∧
  get_total_bridged self' = get_total_bridged self ∧
  owner self' = owner self ∧
  r.2 = [EmotionalDataStored token_id (caller env) v a category].
Proof.
  simpl. unfold get_emotional_data, get_token_count. simpl.
  split; [done|]. split; [apply lookup_insert_eq|].
  split; [intros other Hne; by apply lookup_insert_ne|].
  split; [done|]. split; [apply wrapping_succ_small|]. done.
Qed.

(** X25. [bridge_token] fails with [TokenNotFound], changing nothing and
    emitting nothing, exactly when the token has no emotional data;
    otherwise it records a "pending" bridge from "PolkadotRococo" with
    preservation 95 and complexity 75, increments the bridge count modulo
    2^64, touches no other entry and emits one [TokenBridged] event. *)
Theorem bridge_token_result (env : Env) (self : EmotionalBridge)
    (token_id : Z) (target_chain_ target_contract_ : string) :
  let r := bridge_token env self token_id target_chain_ target_contract_ in
  (r.1.1 = inl TokenNotFound ↔ get_emotional_data self token_id = None) ∧
  (r.1.1 = inr () ↔ is_Some (get_emotional_data self token_id)) ∧
  (get_emotional_data self token_id = None → r = (inl TokenNotFound, self, [])) ∧
  (is_Some (get_emotional_data self token_id) →
   get_bridge_info r.1.2 token_id
   = Some {| source_chain := "PolkadotRococo";
             target_chain := target_chain_;
             source_contract := account_id env;
             target_contract := target_contract_;
             bridge_status := "pending";
             bridge_timestamp := block_timestamp env;
             emotional_preservation := 95;
             bridge_complexity := 75;
             cross_chain_emotional_sync := true |} ∧
   (∀ other, other ≠ token_id →
      get_bridge_info r.1.2 other = get_bridge_info self other) ∧
   get_total_bridged r.1.2 = (get_total_bridged self + 1) mod 2 ^ 64 ∧
   emotional_data r.1.2 = emotional_data self ∧
   get_token_count r.1.2 = get_token_count self ∧
   r.2 = [TokenBridged token_id "PolkadotRococo" target_chain_
                       (block_timestamp env) 95]).
Proof.
  unfold bridge_token, get_emotional_data, get_bridge_info,
    get_total_bridged, get_token_count.
  destruct (emotional_data self !! token_id) as [data|]; simpl.
  - split; [split; done|]. split; [split; [by eexists | done]|].
    split; [done|]. intros _.
    split; [apply lookup_insert_eq|].
    split; [intros other Hne; by apply lookup_insert_ne|]. done.
  - split; [done|]. split; [split; [done | by intros [? ?]]|].
    split; [done|]. by intros [? ?].
Qed.

(** X26. [bridge_token] does not look at the caller: two calls that differ
    only in who calls give the same result, contract and events. *)
Theorem bridge_token_ignores_caller (env1 env2 : Env) (self : EmotionalBridge)
    (token_id : Z) (target_chain_ target_contract_ : string) :
  block_timestamp env1 = block_timestamp env2 →
  account_id env1 = account_id env2 →
  bridge_token env1 self token_id target_chain_ target_contract_
  = bridge_token env2 self token_id target_chain_ target_contract_.
Proof.
  intros Ht Ha. unfold bridge_token. by rewrite Ht, Ha.
Qed.

(** X27. Bridging a token that is already bridged succeeds, puts its status
    back to "pending", keeps the number of bridge entries and still
    increments the bridge count. *)
Theorem bridge_token_again (env : Env) (self : EmotionalBridge)
    (token_id : Z) (target_chain_ target_contract_ : string)
    (data : EmotionalMetadata) (old : BridgeInfo) :
  get_emotional_data self token_id = Some data →
  get_bridge_info self token_id = Some old →
  let r := bridge_token env self token_id target_chain_ target_contract_ in
  r.1.1 = inr () ∧
  bridge_status <$> get_bridge_info r.1.2 token_id = Some "pending" ∧
  size (bridge_info r.1.2) = size (bridge_info self) ∧
  get_total_bridged r.1.2 = (get_total_bridged self + 1) mod 2 ^ 64.
Proof.
  unfold get_emotional_data, get_bridge_info, get_total_bridged, bridge_token.
  intros -> Hold. simpl. split; [done|].
  rewrite lookup_insert_eq. split; [done|]. split; [|done].
  by apply map_size_insert_Some.
Qed.

(** X28. [update_bridge_status] answers [NotOwner] to every caller but the
    owner, before looking at the token; for the owner it answers
    [BridgeNotFound] when the token was never bridged; both leave the
    contract unchanged and emit nothing.  Otherwise only the status of that
    one bridge entry changes and the event carries the old and new status. *)
Theorem update_bridge_status_result (env : Env) (self : EmotionalBridge)
    (token_id : Z) (new_status : string) :
  let r := update_bridge_status env self token_id new_status in
  (caller env ≠ owner self → r = (inl NotOwner, self, [])) ∧
  (caller env = owner self → get_bridge_info self token_id = None →
   r = (inl BridgeNotFound, self, [])) ∧
  (∀ info, caller env = owner self →
     get_bridge_info self token_id = Some info →
     r.1.1 = inr () ∧
     get_bridge_info r.1.2 token_id
     = Some {| source_chain := source_chain info;
               target_chain := target_chain info;
               source_contract := source_contract info;
               target_contract := target_contract info;
               bridge_status := new_status;
               bridge_timestamp := bridge_timestamp info;
               emotional_preservation := emotional_preservation info;
               bridge_complexity := bridge_complexity info;
               cross_chain_emotional_sync :=
                 cross_chain_emotional_sync info |} ∧
     (∀ other, other ≠ token_id →
        get_bridge_info r.1.2 other = get_bridge_info self other) ∧
     emotional_data r.1.2 = emotional_data self ∧
     get_token_count r.1.2 = get_token_count self ∧
     get_total_bridged r.1.2 = get_total_bridged self ∧
     owner r.1.2 = owner self ∧
     r.2 = [BridgeStatusUpdated token_id (bridge_status info) new_status
                                (block_timestamp env)]).
Proof.
  unfold update_bridge_status, get_bridge_info, get_token_count,
    get_total_bridged.
  case_decide as Hc; simpl.
  - split; [done|]. split; [done|]. intros info Heq. done.
  - assert (caller env = owner self) as Heq
      by (destruct (decide (caller env = owner self)); done).
    split; [done|]. split.
    + intros _ ->. done.
    + intros info _ ->. simpl. split; [done|].
      split; [apply lookup_insert_eq|].
      split; [intros other Hne; by apply lookup_insert_ne|]. done.
Qed.

Lemma contract_invariant_new env : contract_invariant (caller env) (new env).
Proof.
  unfold contract_invariant, new. simpl.
  split; [done|]. split; [done|]. split; [done|].
  split; [lia|]. split; [lia|]. apply map_Forall_empty.
Qed.

Lemma contract_invariant_call deployer env self m :
  contract_invariant deployer self →
  contract_invariant deployer (call env self m).
Proof.
  intros (Ho & Hv & Hd & Hc & Ht & Hb). unfold contract_invariant.
  destruct m as [v a d c|t c k|t s]; simpl.
  - split; [done|]. split; [done|].
    split; [rewrite dom_insert_L; etrans; [exact Hd | apply union_subseteq_r]|].
    split; [apply wrapping_succ_range|]. done.
  - unfold bridge_token.
    destruct (emotional_data self !! t) as [data|] eqn:Hdata; simpl; [|done].
    split; [done|]. split; [done|]. split.
    { rewrite dom_insert_L. apply union_least; [|done].
      apply singleton_subseteq_l, elem_of_dom. by eexists. }
    split; [done|]. split; [apply wrapping_succ_range|].
    by apply map_Forall_insert_2.
  - unfold update_bridge_status. case_decide; simpl; [done|].
    destruct (bridge_info self !! t) as [info|] eqn:Hinfo; simpl; [|done].
    split; [done|]. split; [done|]. split.
    { rewrite dom_insert_L. apply union_least; [|done].
      apply singleton_subseteq_l, Hd, elem_of_dom. by eexists. }
    split; [done|]. split; [done|].
    apply map_Forall_insert_2; [|done]. simpl. by apply (Hb t).
Qed.

(** X29. In every contract reachable from [new] by any sequence of calls the
    owner is the deployer, the version is "1.0.0", both counters are below
    2^64, and every bridge entry belongs to a token with emotional data and
    has source chain "PolkadotRococo", preservation 95, complexity 75 and
    the sync flag set. *)
Theorem reachable_invariant (deployer : AccountId) (self : EmotionalBridge) :
  reachable deployer self →
  owner self = deployer ∧
  version self = "1.0.0"%string ∧
  dom (bridge_info self) ⊆ dom (emotional_data self) ∧
  0 ≤ get_token_count self < 2 ^ 64 ∧
  0 ≤ get_total_bridged self < 2 ^ 64 ∧
  (∀ token_id info,
     get_bridge_info self token_id = Some info →
     is_Some (get_emotional_data self token_id) ∧
     source_chain info = "PolkadotRococo"%string ∧
     emotional_preservation info = 95 ∧
     bridge_complexity info = 75 ∧
     cross_chain_emotional_sync info = true).
Proof.
  intros Hr.
  assert (contract_invariant deployer self) as (Ho & Hv & Hd & Hc & Ht & Hb).
  { induction Hr as [env <-|env self m _ IH];
      [apply contract_invariant_new | by apply contract_invariant_call]. }
  split; [done|]. split; [done|]. split; [done|]. split; [done|].
  split; [done|]. intros token_id info Hinfo.
  split; [|by apply (Hb token_id)].
  apply elem_of_dom, Hd, elem_of_dom. by eexists.
Qed.

(** Stored emotional data is never removed or changed except by a store that
    lands on the same id. *)
(** X30. No call removes the emotional data of a token, and no call changes
    it unless it is a store that lands on that very id. *)
Theorem call_keeps_emotional_data (env : Env) (self : EmotionalBridge)
    (m : Message) (token_id : Z) :
  is_Some (get_emotional_data self token_id) →
  is_Some (get_emotional_data (call env self m) token_id) ∧
  (token_id ≠ get_token_count self →
   get_emotional_data (call env self m) token_id
   = get_emotional_data self token_id).
Proof.
  unfold get_emotional_data, get_token_count. intros Hsome.
  destruct m as [v a d c|t c k|t s]; simpl.
  - split.
    + destruct (decide (token_id = token_counter self)) as [->|Hne];
        [rewrite lookup_insert_eq; by eexists | by rewrite lookup_insert_ne].
    + intros Hne. by rewrite lookup_insert_ne.
  - unfold bridge_token. by destruct (emotional_data self !! t).
  - unfold update_bridge_status. case_decide; [done|].
    by destruct (bridge_info self !! t).
Qed.

End InkProofs.

(** ** Concrete instances *)

Section Instances.
Import Samples.

Lemma analyze_emotional_trend_two_entries_witness :
  EmotionalBridge.analyze_emotional_trend rising
  = EmotionalBridge.analyze_emotional_trend rising_detour.
Proof.
  apply (analyze_emotional_trend_two_entries rising rising_detour
           (Examples.observation 1 0 0) (Examples.observation 3 0.2 0.1)
           (Examples.observation 1 0 0) (Examples.observation 3 0.2 0.1));
    first [ reflexivity | simpl; lia ].
Defined.

Lemma analyze_emotional_trend_classes_witness :
  EmotionalBridge.analyze_emotional_trend rising
  = Some EmotionalBridge.Ascending
  ↔ Rabs (0.2 - 0) <= 0.3 ∧ Rabs (0.1 - 0) <= 0.3 ∧
    (0.1 < 0.2 - 0 ∨ 0.1 < 0.1 - 0).
Proof.
  apply (analyze_emotional_trend_classes rising
           (Examples.observation 1 0 0) (Examples.observation 3 0.2 0.1));
    first [ reflexivity | simpl; lia ].
Defined.

Lemma calculate_weighted_score_capped_witness :
  Soulbound.fields_in_unit (even_score Soulbound.Basic) ∧
  0 <= Soulbound.calculate_weighted_score (even_score Soulbound.Basic)
    <= Rmin 1 0.8.
Proof.
  assert (Soulbound.fields_in_unit (even_score Soulbound.Basic)) as Hf
    by (unfold Soulbound.fields_in_unit; simpl; lra).
  split; [exact Hf|].
  apply (calculate_weighted_score_capped (even_score Soulbound.Basic) Hf).
Defined.

Lemma calculate_weighted_score_level_monotone_witness :
  Soulbound.calculate_weighted_score (even_score Soulbound.Basic)
  <= Soulbound.calculate_weighted_score (even_score Soulbound.Premium).
Proof.
  apply (calculate_weighted_score_level_monotone
           (even_score Soulbound.Basic) (even_score Soulbound.Premium));
    [reflexivity | unfold Soulbound.base_score_of; simpl; lra | simpl; lia].
Defined.

Lemma update_reputation_unit_interval_witness :
  0 <= Soulbound.overall_score (Examples.creative_result 604900) <= 1.
Proof.
  apply (update_reputation_unit_interval Examples.half_life
           Soulbound.exponential_decay_spec Soulbound.weighted_score_spec
           Examples.constant_stability (Examples.world_at 604900)
           Examples.manager0 1%N Examples.creative_activity Examples.token0
           (Examples.creative_result 604900)); reflexivity.
Defined.

Lemma update_reputation_keys_witness :
  dom (Soulbound.category_scores (Examples.creative_result 604900))
  = dom (Soulbound.category_scores
           (Soulbound.reputation_score Examples.token0))
    ∪ dom (Soulbound.activity_scores Examples.creative_activity).
Proof.
  apply (update_reputation_keys Examples.half_life
           Soulbound.exponential_decay_spec Soulbound.weighted_score_spec
           Examples.constant_stability (Examples.world_at 604900)
           Examples.manager0 1%N Examples.creative_activity Examples.token0
           (Examples.creative_result 604900)); reflexivity.
Defined.

Lemma update_reputation_other_tokens_witness :
  2%N ≠ 1%N ∧
  Soulbound.tokens (Examples.creative_call 604900).2 !! 2%N
  = Soulbound.tokens Examples.manager0 !! 2%N.
Proof.
  split; [discriminate|].
  apply (update_reputation_other_tokens Examples.half_life
           Soulbound.exponential_decay_spec Soulbound.weighted_score_spec
           Examples.constant_stability (Examples.world_at 604900)
           Examples.manager0 1%N Examples.creative_activity 2%N).
  discriminate.
Defined.

Lemma update_reputation_struct_fields_witness :
  Soulbound.emotional_consistency (Examples.creative_result 604900)
  = Soulbound.emotional_consistency
      (Soulbound.reputation_score Examples.token0).
Proof.
  apply (update_reputation_struct_fields Examples.half_life
           Soulbound.exponential_decay_spec Soulbound.weighted_score_spec
           Examples.constant_stability (Examples.world_at 604900)
           Examples.manager0 1%N Examples.creative_activity Examples.token0
           (Examples.creative_result 604900)); reflexivity.
Defined.

Lemma update_reputation_mix_extremes_witness :
  ∃ v,
    Soulbound.score_after half_decay_call "creative_output_quality" = Some v ∧
    v = 0.5 * 0.5 + 1 * (1 - 0.5) ∧
    (0.5 = 1 → v = 0.5) ∧
    (0.5 = 0 → v = 1).
Proof.
  apply (update_reputation_mix_extremes Examples.half_life half_decay
           Soulbound.weighted_score_spec Examples.constant_stability
           (Examples.world_at 200) Examples.manager0 1%N
           Examples.creative_activity Examples.token0
           "creative_output_quality" 1);
    first [ reflexivity | unfold half_decay; lra
          | rewrite token0_prior; simpl; lra | lra ].
Defined.

Lemma calculate_identity_hash_concatenation_witness :
  CrossChain.source_chain message_near ≠ CrossChain.source_chain message_ear ∧
  CrossChain.calculate_identity_hash toy_digest message_near
  = CrossChain.calculate_identity_hash toy_digest message_ear.
Proof.
  split; [discriminate|].
  apply (calculate_identity_hash_concatenation toy_digest
           message_near message_ear); reflexivity.
Defined.

Lemma emotion_data_round_trip_witness :
  Rabs (PolkadotClient.valence
          (PolkadotClient.emotion_data_of_contract half_valence_stored)
        - PolkadotClient.valence half_valence) < 1 / 127 ∧
  Rabs (PolkadotClient.arousal
          (PolkadotClient.emotion_data_of_contract half_valence_stored)
        - PolkadotClient.arousal half_valence) < 1 / 127 ∧
  Rabs (PolkadotClient.dominance
          (PolkadotClient.emotion_data_of_contract half_valence_stored)
        - PolkadotClient.dominance half_valence) < 1 / 127.
Proof.
  apply (emotion_data_round_trip half_valence half_valence_stored);
    first [ reflexivity
          | simpl; unfold Rmax, Rmin; repeat destruct Rle_dec; lra ].
Defined.

Lemma validateCrossChainTransfer_created_witness :
  AIBridge.validateCrossChainTransfer sample_transfer = true ↔
  (10 ≤ String.length (AIBridge.transferId sample_transfer))%nat ∧
  (6 ≤ length six_entries)%nat ∧
  0.5 <= default 0.85 None ∧
  0.3 <= AIBridge.analysis_confidence (AIBridge.emotionAnalysis sample_transfer).
Proof.
  apply (validateCrossChainTransfer_created toy_sha256_json 0 six_entries
           None None sample_transfer).
  reflexivity.
Defined.

Lemma sample_transfer_accepted :
  AIBridge.validateCrossChainTransfer sample_transfer = true.
Proof.
  apply validateCrossChainTransfer_true. simpl.
  split; [lia|]. unfold Rmax, Rmin.
  repeat destruct Rle_dec; repeat split; lra.
Qed.

Lemma accepted_transfer_needs_no_normalization_witness :
  "vector_normalization"
    ∉ AIBridge.transformations
        (AIBridge.analyzeCrossChainCompatibility true
           (AIBridge.biometricData sample_transfer)).
Proof.
  apply (accepted_transfer_needs_no_normalization true sample_transfer).
  exact sample_transfer_accepted.
Defined.

Lemma bridge_token_ignores_caller_witness :
  InkBridge.caller alice_env ≠ InkBridge.caller bob_env ∧
  InkBridge.bridge_token alice_env stored_contract 0 "Ethereum" "0xabc"
  = InkBridge.bridge_token bob_env stored_contract 0 "Ethereum" "0xabc".
Proof.
  split; [discriminate|].
  apply (bridge_token_ignores_caller alice_env bob_env stored_contract 0
           "Ethereum" "0xabc"); reflexivity.
Defined.

Lemma bridge_token_again_witness :
  InkBridge.get_total_bridged
    (InkBridge.bridge_token bob_env bridged_contract 0 "Near" "near.acc").1.2
  = ((InkBridge.get_total_bridged bridged_contract + 1) mod 2 ^ 64)%Z.
Proof.
  apply (bridge_token_again bob_env bridged_contract 0 "Near" "near.acc"
           excited pending_bridge); reflexivity.
Defined.

Lemma bridged_contract_reachable :
  InkBridge.reachable "alice" bridged_contract.
Proof.
  unfold bridged_contract, stored_contract.
  do 2 apply InkBridge.reachable_call. by apply InkBridge.reachable_new.
Qed.

Lemma reachable_invariant_witness :
  InkBridge.owner bridged_contract = "alice".
Proof.
  apply (reachable_invariant "alice" bridged_contract).
  exact bridged_contract_reachable.
Defined.

Lemma call_keeps_emotional_data_witness :
  is_Some (InkBridge.get_emotional_data
             (InkBridge.call bob_env stored_contract
                (InkBridge.UpdateBridgeStatus 0 "done")) 0%Z).
Proof.
  apply (call_keeps_emotional_data bob_env stored_contract
           (InkBridge.UpdateBridgeStatus 0 "done") 0%Z).
  by eexists.
Defined.

(** The contract's own unit tests. *)
Example test_store_emotional_data :
  (InkBridge.store_emotional_data alice_env (InkBridge.new alice_env)
     75 80 60 "Excited").1.1 = 0%Z ∧
  InkBridge.get_token_count stored_contract = 1%Z ∧
  InkBridge.get_emotional_data stored_contract 0 = Some excited.
Proof. by vm_compute. Qed.

Example test_bridge_token :
  (InkBridge.bridge_token alice_env stored_contract 0 "Ethereum"
     "0x1234567890abcdef").1.1 = inr () ∧
  InkBridge.get_total_bridged bridged_contract = 1%Z ∧
  InkBridge.get_bridge_info bridged_contract 0 = Some pending_bridge.
Proof. by vm_compute. Qed.

Example test_contract_info :
  InkBridge.get_contract_info (InkBridge.new alice_env)
  = {| InkBridge.info_owner := "alice"; InkBridge.info_token_counter := 0;
       InkBridge.info_total_bridged := 0; InkBridge.info_version := "1.0.0" |}.
Proof. reflexivity. Qed.

End Instances.
